(** * Current Capital: the feed pipeline of [generate.py]

    A shallow embedding of [fetch_rss], [parse_feed], [summarise],
    [build_articles], [render_articles] and [main], and of the
    standard-library calls they make ([str.split], [re.sub],
    [html.unescape], [ElementTree.find*], [datetime.strptime],
    [list.sort], [str.format]), followed by the properties of the
    pipeline.  [main] is kept as the text it writes.

    A Python [str] is kept as a [string]: one character per code point,
    which covers the code points below 256.  A call that can raise
    returns an [option] or an [outcome].  What the interpreter takes
    from its host (the network, the XML parser, the entity table, the
    local time zone) is gathered in the record [Host]. *)

From Stdlib Require Import ZArith List String Ascii Bool Lia Permutation Sorted.
From Stdlib Require Import DecimalString.
Import ListNotations.

Local Open Scope string_scope.
Local Open Scope Z_scope.

(* ================================================================== *)
(** ** Python strings *)

Module Str.

(** [str.isspace] on one character: TAB..CR, FS..US, space, NEL, NBSP. *)
Definition isspace (c : ascii) : bool :=
  let n := N_of_ascii c in
  ((9 <=? n) && (n <=? 13) || (28 <=? n) && (n <=? 32) || (n =? 133) || (n =? 160))%N.

(** Truth value of a string: [not s] holds of the empty string only. *)
Definition truthy (s : string) : bool :=
  match s with
  | EmptyString => false
  | String _ _ => true
  end.

Fixpoint all (p : ascii -> bool) (s : string) : bool :=
  match s with
  | EmptyString => true
  | String c r => p c && all p r
  end.

(** [c in s] *)
Fixpoint mem (c : ascii) (s : string) : bool :=
  match s with
  | EmptyString => false
  | String d r => Ascii.eqb c d || mem c r
  end.

Fixpoint lstrip (s : string) : string :=
  match s with
  | EmptyString => EmptyString
  | String c r => if isspace c then lstrip r else s
  end.

Fixpoint rstrip (s : string) : string :=
  match s with
  | EmptyString => EmptyString
  | String c r =>
      match rstrip r with
      | EmptyString => if isspace c then EmptyString else String c EmptyString
      | r' => String c r'
      end
  end.

(** [s.strip()] *)
Definition strip (s : string) : string := rstrip (lstrip s).

(** The scan of [s.split()]: [cur] is the word being read. *)
Fixpoint words_from (cur : string) (s : string) : list string :=
  match s with
  | EmptyString => if truthy cur then [cur] else []
  | String c r =>
      if isspace c
      then (if truthy cur then cur :: words_from EmptyString r
            else words_from EmptyString r)
      else words_from (cur ++ String c EmptyString) r
  end.

(** [s.split()]: the maximal runs of non-whitespace characters. *)
Definition split (s : string) : list string := words_from EmptyString s.

(** [sep.join(ws)] *)
Definition join (sep : string) (ws : list string) : string := String.concat sep ws.

(** [l[:n]], a negative [n] counting from the end. *)
Definition slice_to {A : Type} (l : list A) (n : Z) : list A :=
  if n <? 0 then firstn (Z.to_nat (Z.of_nat (List.length l) + n)) l
  else firstn (Z.to_nat n) l.

(** The longest prefix of [s] whose characters satisfy [p], and the rest. *)
Fixpoint span (p : ascii -> bool) (s : string) : string * string :=
  match s with
  | EmptyString => (EmptyString, EmptyString)
  | String c r =>
      if p c then let (a, b) := span p r in (String c a, b)
      else (EmptyString, s)
  end.

(** As [span], taking at most [n] characters. *)
Fixpoint span_upto (n : nat) (p : ascii -> bool) (s : string) : string * string :=
  match n, s with
  | S k, String c r =>
      if p c then let (a, b) := span_upto k p r in (String c a, b)
      else (EmptyString, s)
  | _, _ => (EmptyString, s)
  end.

(** ASCII lower case, as the case-insensitive matches below need it. *)
Definition lower (c : ascii) : ascii :=
  let n := N_of_ascii c in
  if ((65 <=? n) && (n <=? 90))%N then ascii_of_N (n + 32) else c.

Fixpoint lowercase (s : string) : string :=
  match s with
  | EmptyString => EmptyString
  | String c r => String (lower c) (lowercase r)
  end.

Definition isdigit (c : ascii) : bool :=
  let n := N_of_ascii c in ((48 <=? n) && (n <=? 57))%N.

Definition digit_val (c : ascii) : Z := Z.of_N (N_of_ascii c) - 48.

Definition nonspace (c : ascii) : bool := negb (isspace c).

(** A word as [split] yields them: not empty, no whitespace in it. *)
Definition is_word (w : string) : Prop :=
  w <> EmptyString /\ all nonspace w = true.

End Str.

(* ================================================================== *)
(** ** [re.sub(r"<[^>]+>", "", text)] *)

Module Re.

Definition is_lt (c : ascii) : bool := Ascii.eqb c "<".
Definition is_gt (c : ascii) : bool := Ascii.eqb c ">".

(** [[^>]+>] matches at the head of [r]: a character other than [>] is
    there and a [>] follows somewhere.  The match then ends at the first
    [>], since [[^>]+] cannot step over one. *)
Definition opens_tag (r : string) : bool :=
  match r with
  | EmptyString => false
  | String d r' => negb (is_gt d) && Str.mem ">" r'
  end.

(** The left-to-right scan of [re.sub]: outside a match a [<] that opens
    a tag starts one, and the match is dropped up to its closing [>];
    every other character is copied. *)
Fixpoint sub_tags_from (inside : bool) (s : string) : string :=
  match s with
  | EmptyString => EmptyString
  | String c r =>
      if inside then sub_tags_from (negb (is_gt c)) r
      else if is_lt c && opens_tag r then sub_tags_from true r
      else String c (sub_tags_from false r)
  end.

Definition sub_tags (text : string) : string := sub_tags_from false text.

End Re.

(* ================================================================== *)
(** ** [html.unescape] *)

Module Html.

Definition is_hex (c : ascii) : bool :=
  let n := N_of_ascii (Str.lower c) in
  Str.isdigit c || ((97 <=? n) && (n <=? 102))%N.

(** [[^\t\n\f <&#;]] *)
Definition is_name_char (c : ascii) : bool :=
  let n := N_of_ascii c in
  negb ((n =? 9) || (n =? 10) || (n =? 12) || (n =? 32) ||
        (n =? 60) || (n =? 38) || (n =? 35) || (n =? 59))%N.

(** [;?] at the head of [r]. *)
Definition opt_semicolon (r : string) : string :=
  match r with
  | String c _ => if Ascii.eqb c ";" then ";" else EmptyString
  | EmptyString => EmptyString
  end.

(** Group 1 of [_charref] when it matches at an [&] followed by [r]:
    [#[0-9]+;?], else [#[xX][0-9a-fA-F]+;?], else
    [[^\t\n\f <&#;]{1,32};?]. *)
Definition charref (r : string) : option string :=
  match r with
  | String c r1 =>
      if Ascii.eqb c "#" then
        let (ds, after) := Str.span Str.isdigit r1 in
        if Str.truthy ds then Some (String c (ds ++ opt_semicolon after))
        else
          match r1 with
          | String x r2 =>
              if Ascii.eqb (Str.lower x) "x" then
                let (hs, after) := Str.span is_hex r2 in
                if Str.truthy hs
                then Some (String c (String x (hs ++ opt_semicolon after)))
                else None
              else None
          | EmptyString => None
          end
      else
        let (nm, after) := Str.span_upto 32 is_name_char r in
        if Str.truthy nm then Some (nm ++ opt_semicolon after) else None
  | EmptyString => None
  end.

(** [_charref.sub(_replace_charref, s)]: [skip] counts the characters of
    the current match that are still to be dropped.  [replace_charref]
    is the library's function of group 1 (the entity table and the
    decoding of numeric references). *)
Fixpoint sub_charrefs (replace_charref : string -> string) (skip : nat)
    (s : string) : string :=
  match s with
  | EmptyString => EmptyString
  | String c r =>
      match skip with
      | S k => sub_charrefs replace_charref k r
      | O =>
          if Ascii.eqb c "&" then
            match charref r with
            | Some g =>
                replace_charref g
                  ++ sub_charrefs replace_charref (String.length g) r
            | None => String c (sub_charrefs replace_charref 0 r)
            end
          else String c (sub_charrefs replace_charref 0 r)
      end
  end.

Definition unescape (replace_charref : string -> string) (s : string) : string :=
  if negb (Str.mem "&" s) then s
  else sub_charrefs replace_charref 0 s.

(** An instance for the examples: the three references they use,
    decoded as the library decodes them.  It is no model of the whole
    entity table: every other group is given back as written. *)
Definition xml_charref (g : string) : string :=
  if String.eqb g "amp;" then "&"
  else if String.eqb g "lt;" then "<"
  else if String.eqb g "gt;" then ">"
  else String "&" g.

End Html.

(* ================================================================== *)
(** ** [xml.etree.ElementTree] *)

Module ET.

(** An element: its tag, attributes, the text before its first child
    ([None] when there is none) and its children in document order. *)
#[warnings="-register-all"]
Inductive Element : Type :=
  mkElement (tag : string) (attrib : list (string * string))
            (text : option string) (children : list Element).

Definition tag (e : Element) : string :=
  let 'mkElement t _ _ _ := e in t.
Definition attrib (e : Element) : list (string * string) :=
  let 'mkElement _ a _ _ := e in a.
Definition text (e : Element) : option string :=
  let 'mkElement _ _ x _ := e in x.
Definition children (e : Element) : list Element :=
  let 'mkElement _ _ _ cs := e in cs.

Definition has_tag (path : string) (e : Element) : bool := String.eqb (tag e) path.

(** [e.find(path)] for a path that is one tag: the first such child. *)
Definition find (path : string) (e : Element) : option Element :=
  List.find (has_tag path) (children e).

(** [e.findall(path)]: the children with that tag, in document order. *)
Definition findall (path : string) (e : Element) : list Element :=
  List.filter (has_tag path) (children e).

(** [e.findtext(path, default=d)]: the text of the first such child, the
    empty string when that child has no text, [d] when there is no such
    child. *)
Definition findtext (path : string) (default : string) (e : Element) : string :=
  match find path e with
  | Some c => match text c with Some t => t | None => EmptyString end
  | None => default
  end.

(** [e.get(key, default)] *)
Definition get (key : string) (default : string) (e : Element) : string :=
  match List.find (fun kv => String.eqb (fst kv) key) (attrib e) with
  | Some kv => snd kv
  | None => default
  end.

End ET.

(* ================================================================== *)
(** ** [datetime] *)

Module Datetime.

(** A [datetime] built by [strptime] or [fromtimestamp]: the wall-clock
    fields and, for an aware value, the UTC offset of its fixed-offset
    [timezone] in microseconds.  The microsecond field is left out: no
    format of the program reads one, so it is always 0. *)
Record datetime : Type := mk {
  year : Z; month : Z; day : Z;
  hour : Z; minute : Z; second : Z;
  tzinfo : option Z
}.

Definition is_leap (y : Z) : bool :=
  (y mod 4 =? 0) && (negb (y mod 100 =? 0) || (y mod 400 =? 0)).

Definition days_in_month (y m : Z) : Z :=
  if m =? 2 then (if is_leap y then 29 else 28)
  else if (m =? 4) || (m =? 6) || (m =? 9) || (m =? 11) then 30
  else 31.

Definition days_before_year (y : Z) : Z :=
  let p := y - 1 in p * 365 + p / 4 - p / 100 + p / 400.

Definition days_before_month (y m : Z) : Z :=
  fold_right Z.add 0
    (map (days_in_month y) (filter (fun k => k <? m) [1;2;3;4;5;6;7;8;9;10;11])).

(** [date(y, m, d).toordinal()] *)
Definition toordinal (y m d : Z) : Z :=
  days_before_year y + days_before_month y m + d.

(** [date(y, m, d)] does not raise. *)
Definition valid_date (y m d : Z) : bool :=
  (1 <=? y) && (y <=? 9999) && (1 <=? m) && (m <=? 12) &&
  (1 <=? d) && (d <=? days_in_month y m).

(** Microseconds of the wall-clock fields since the start of year 1. *)
Definition wall (t : datetime) : Z :=
  (((toordinal (year t) (month t) (day t) * 24 + hour t) * 60 + minute t) * 60
   + second t) * 1000000.

Definition aware (t : datetime) : bool :=
  match tzinfo t with Some _ => true | None => false end.

(** What a comparison compares: the wall clock of a naive value, the UTC
    instant of an aware one. *)
Definition instant (t : datetime) : Z :=
  match tzinfo t with
  | Some off => wall t - off
  | None => wall t
  end.

(** [a < b]; [None] is the [TypeError] "can't compare offset-naive and
    offset-aware datetimes". *)
Definition lt (a b : datetime) : option bool :=
  if Bool.eqb (aware a) (aware b) then Some (instant a <? instant b) else None.

(** [a == b], which never raises: a naive and an aware value differ. *)
Definition eqb (a b : datetime) : bool :=
  Bool.eqb (aware a) (aware b) && (instant a =? instant b).

(** [datetime.fromtimestamp(0)] on a host whose local time is
    [utcoffset] seconds ahead of UTC at the epoch: a naive value. *)
Definition fromtimestamp0 (utcoffset : Z) : datetime :=
  let s := if utcoffset <? 0 then 86400 + utcoffset else utcoffset in
  {| year := if utcoffset <? 0 then 1969 else 1970;
     month := if utcoffset <? 0 then 12 else 1;
     day := if utcoffset <? 0 then 31 else 1;
     hour := s / 3600; minute := (s mod 3600) / 60; second := s mod 60;
     tzinfo := None |}.

(** *** [datetime.strptime]

    The format is compiled as [_strptime.TimeRE.pattern] does: a run of
    whitespace becomes [\s+], a directive becomes its group, every other
    character stands for itself; the whole is matched ignoring case. *)

Inductive directive : Type :=
  D_a | D_b | D_d | D_H | D_m | D_M | D_S | D_Y | D_Z | D_z.

Inductive tok : Type :=
| Lit (c : ascii)
| Spaces
| Dir (d : directive).

Definition directive_of (c : ascii) : option directive :=
  if Ascii.eqb c "a" then Some D_a else if Ascii.eqb c "b" then Some D_b
  else if Ascii.eqb c "d" then Some D_d else if Ascii.eqb c "H" then Some D_H
  else if Ascii.eqb c "m" then Some D_m else if Ascii.eqb c "M" then Some D_M
  else if Ascii.eqb c "S" then Some D_S
  else if Ascii.eqb c "Y" then Some D_Y else if Ascii.eqb c "Z" then Some D_Z
  else if Ascii.eqb c "z" then Some D_z else None.

(** [None]: a directive the program never uses, or a lone [%]. *)
Fixpoint parse_format (fmt : string) : option (list tok) :=
  match fmt with
  | EmptyString => Some []
  | String c r =>
      if Ascii.eqb c "%" then
        match r with
        | String d r' =>
            match directive_of d, parse_format r' with
            | Some x, Some ts => Some (Dir x :: ts)
            | _, _ => None
            end
        | EmptyString => None
        end
      else
        match parse_format r with
        | Some ts =>
            if Str.isspace c then
              match ts with
              | Spaces :: _ => Some ts
              | _ => Some (Spaces :: ts)
              end
            else Some (Lit c :: ts)
        | None => None
        end
  end.

(** The sign, digits and colons [%z] matched:
    [[+-]\d\d:?[0-5]\d(:?[0-5]\d(\.\d{1,6})?)?], or the letter [Z]. *)
Inductive zone_match : Type :=
| Zulu
| Offset (negative : bool) (hh : Z) (colon1 : bool) (mm : Z)
         (tail : option (bool * Z * string)).

(** What the groups of a match hold. *)
Record parts : Type := mkParts {
  p_year : option Z; p_month : Z; p_day : Z;
  p_hour : Z; p_minute : Z; p_second : Z;
  p_zone : option zone_match
}.

Definition no_parts : parts := mkParts None 1 1 0 0 0 None.

Definition in_range (lo hi : ascii) (c : ascii) : bool :=
  ((N_of_ascii lo <=? N_of_ascii c) && (N_of_ascii c <=? N_of_ascii hi))%N.

(** Two characters [a b] with [pa a] and [pb b], read as a number. *)
Definition two (pa pb : ascii -> bool) (s : string) : list (Z * string) :=
  match s with
  | String a (String b r) =>
      if pa a && pb b
      then [((if Str.isdigit a then 10 * Str.digit_val a else 0) + Str.digit_val b, r)]
      else []
  | _ => []
  end.

Definition one (pa : ascii -> bool) (s : string) : list (Z * string) :=
  match s with
  | String a r => if pa a then [(Str.digit_val a, r)] else []
  | EmptyString => []
  end.

Definition is_char (x : ascii) (c : ascii) : bool := Ascii.eqb c x.

(** [3[0-1]|[1-2]\d|0[1-9]|[1-9]| [1-9]] *)
Definition re_d (s : string) : list (Z * string) :=
  two (is_char "3") (in_range "0" "1") s ++ two (in_range "1" "2") Str.isdigit s
  ++ two (is_char "0") (in_range "1" "9") s ++ one (in_range "1" "9") s
  ++ two (is_char " ") (in_range "1" "9") s.

(** [2[0-3]|[0-1]\d|\d] *)
Definition re_H (s : string) : list (Z * string) :=
  two (is_char "2") (in_range "0" "3") s ++ two (in_range "0" "1") Str.isdigit s
  ++ one Str.isdigit s.

(** [1[0-2]|0[1-9]|[1-9]] *)
Definition re_m (s : string) : list (Z * string) :=
  two (is_char "1") (in_range "0" "2") s ++ two (is_char "0") (in_range "1" "9") s
  ++ one (in_range "1" "9") s.

(** [[0-5]\d|\d] *)
Definition re_M (s : string) : list (Z * string) :=
  two (in_range "0" "5") Str.isdigit s ++ one Str.isdigit s.

(** [6[0-1]|[0-5]\d|\d] *)
Definition re_S (s : string) : list (Z * string) :=
  two (is_char "6") (in_range "0" "1") s ++ two (in_range "0" "5") Str.isdigit s
  ++ one Str.isdigit s.

(** [\d\d\d\d] *)
Definition re_Y (s : string) : list (Z * string) :=
  flat_map (fun '(hi, r) => map (fun '(lo, r') => (100 * hi + lo, r'))
                                (two Str.isdigit Str.isdigit r))
           (two Str.isdigit Str.isdigit s).

(** [s] starts with [name], ignoring case: what is left of [s]. *)
Fixpoint after_name (name s : string) : option string :=
  match name, s with
  | EmptyString, _ => Some s
  | String a name', String b s' =>
      if Ascii.eqb (Str.lower a) (Str.lower b) then after_name name' s' else None
  | String _ _, EmptyString => None
  end.

(** An alternation of names, in the order given: the index of each name
    that matches, with what is left. *)
Fixpoint re_names (i : Z) (names : list string) (s : string) : list (Z * string) :=
  match names with
  | [] => []
  | n :: ns =>
      match after_name n s with
      | Some r => (i, r) :: re_names (i + 1) ns s
      | None => re_names (i + 1) ns s
      end
  end.

(** The abbreviated day and month names of the C locale. *)
Definition a_weekday : list string := ["mon"; "tue"; "wed"; "thu"; "fri"; "sat"; "sun"].

Definition a_month : list string :=
  ["jan"; "feb"; "mar"; "apr"; "may"; "jun"; "jul"; "aug"; "sep"; "oct"; "nov"; "dec"].

(** [__seqToRE] orders the alternatives of a group longest first. *)
Fixpoint insert_by_length (n : string) (l : list string) : list string :=
  match l with
  | [] => [n]
  | m :: l' =>
      if (String.length m <? String.length n)%nat then n :: l
      else m :: insert_by_length n l'
  end.

Definition longest_first (l : list string) : list string :=
  fold_right insert_by_length [] l.

(** The names [%Z] accepts: [utc], [gmt] and the host's [time.tzname]. *)
Definition zone_names (tzname : list string) : list string :=
  longest_first ("utc" :: "gmt" :: map Str.lowercase tzname).

(** [\s+], the longest run first. *)
Fixpoint re_spaces (s : string) : list string :=
  match s with
  | String c r => if Str.isspace c then re_spaces r ++ [r] else []
  | EmptyString => []
  end.

(** [(\.\d{1,6})?]: the digits taken, at most [n], the most first. *)
Fixpoint re_digits_upto (n : nat) (s : string) : list (string * string) :=
  match n, s with
  | S k, String c r =>
      if Str.isdigit c
      then map (fun '(ds, r') => (String c ds, r')) (re_digits_upto k r)
           ++ [(String c EmptyString, r)]
      else []
  | _, _ => []
  end.

Definition re_fraction (s : string) : list (string * string) :=
  match s with
  | String c r =>
      (if Ascii.eqb c "." then re_digits_upto 6 r else []) ++ [(EmptyString, s)]
  | EmptyString => [(EmptyString, s)]
  end.

(** [:?] *)
Definition re_colon (s : string) : list (bool * string) :=
  match s with
  | String c r => (if Ascii.eqb c ":" then [(true, r)] else []) ++ [(false, s)]
  | EmptyString => [(false, s)]
  end.

(** [(:?[0-5]\d(\.\d{1,6})?)?] *)
Definition re_zone_tail (s : string) : list (option (bool * Z * string) * string) :=
  flat_map (fun '(c2, r) =>
    flat_map (fun '(ss, r') =>
      map (fun '(fr, r'') => (Some (c2, ss, fr), r'')) (re_fraction r'))
      (two (in_range "0" "5") Str.isdigit r))
    (re_colon s)
  ++ [(None, s)].

(** [[+-]\d\d:?[0-5]\d(:?[0-5]\d(\.\d{1,6})?)?|(?-i:Z)] *)
Definition re_z (s : string) : list (zone_match * string) :=
  match s with
  | String c r =>
      (if Ascii.eqb c "+" || Ascii.eqb c "-" then
         flat_map (fun '(hh, r1) =>
           flat_map (fun '(c1, r2) =>
             flat_map (fun '(mm, r3) =>
               map (fun '(tl, r4) => (Offset (Ascii.eqb c "-") hh c1 mm tl, r4))
                   (re_zone_tail r3))
               (two (in_range "0" "5") Str.isdigit r2))
             (re_colon r1))
           (two Str.isdigit Str.isdigit r)
       else [])
      ++ (if Ascii.eqb c "Z" then [(Zulu, r)] else [])
  | EmptyString => []
  end.

(** One token of the pattern at the head of [s]: every way it matches,
    in the order a backtracking matcher tries them. *)
Definition match_tok (tzname : list string) (t : tok) (p : parts) (s : string)
  : list (parts * string) :=
  let 'mkParts y mo d h mi se z := p in
  match t with
  | Lit c =>
      match s with
      | String b r => if Ascii.eqb (Str.lower b) (Str.lower c) then [(p, r)] else []
      | EmptyString => []
      end
  | Spaces => map (fun r => (p, r)) (re_spaces s)
  | Dir D_a => map (fun '(_, r) => (p, r)) (re_names 0 a_weekday s)
  | Dir D_b => map (fun '(i, r) => (mkParts y i d h mi se z, r)) (re_names 1 a_month s)
  | Dir D_d => map (fun '(v, r) => (mkParts y mo v h mi se z, r)) (re_d s)
  | Dir D_H => map (fun '(v, r) => (mkParts y mo d v mi se z, r)) (re_H s)
  | Dir D_m => map (fun '(v, r) => (mkParts y v d h mi se z, r)) (re_m s)
  | Dir D_M => map (fun '(v, r) => (mkParts y mo d h v se z, r)) (re_M s)
  | Dir D_S => map (fun '(v, r) => (mkParts y mo d h mi v z, r)) (re_S s)
  | Dir D_Y => map (fun '(v, r) => (mkParts (Some v) mo d h mi se z, r)) (re_Y s)
  | Dir D_Z => map (fun '(_, r) => (p, r)) (re_names 0 (zone_names tzname) s)
  | Dir D_z => map (fun '(v, r) => (mkParts y mo d h mi se (Some v), r)) (re_z s)
  end.

Fixpoint match_toks (tzname : list string) (ts : list tok) (p : parts) (s : string)
  : list (parts * string) :=
  match ts with
  | [] => [(p, s)]
  | t :: ts' =>
      flat_map (fun '(p', r) => match_toks tzname ts' p' r) (match_tok tzname t p s)
  end.

(** The fraction of [%z], padded to six digits. *)
Fixpoint digits_value (acc : Z) (s : string) : Z :=
  match s with
  | EmptyString => acc
  | String c r => digits_value (10 * acc + Str.digit_val c) r
  end.

Definition micros (fr : string) : Z :=
  digits_value 0 fr * 10 ^ (6 - Z.of_nat (String.length fr)).

(** The offset of a [%z] match in microseconds; [None] is the
    [ValueError] of a colon used before the minutes and not before the
    seconds, or the other way round. *)
Definition gmtoff (z : zone_match) : option Z :=
  match z with
  | Zulu => Some 0
  | Offset neg hh c1 mm tl =>
      let signed v := if neg then - v else v in
      match tl with
      | None => Some (signed ((hh * 3600 + mm * 60) * 1000000))
      | Some (c2, ss, fr) =>
          if Bool.eqb c1 c2
          then Some (signed ((hh * 3600 + mm * 60 + ss) * 1000000 + micros fr))
          else None
      end
  end.

(** The value [strptime] builds from a match; [None] is the
    [ValueError] of a date, a second or an offset out of range. *)
Definition build (p : parts) : option datetime :=
  let y := match p_year p with
           | Some y => y
           | None => if (p_month p =? 2) && (p_day p =? 29) then 1904 else 1900
           end in
  if valid_date y (p_month p) (p_day p) && (p_second p <=? 59) then
    match p_zone p with
    | None => Some (mk y (p_month p) (p_day p) (p_hour p) (p_minute p) (p_second p) None)
    | Some z =>
        match gmtoff z with
        | Some off =>
            if Z.abs off <? 86400000000
            then Some (mk y (p_month p) (p_day p) (p_hour p) (p_minute p)
                          (p_second p) (Some off))
            else None
        | None => None
        end
    end
  else None.

(** [datetime.strptime(s, fmt)]; [None] is the exception it raises: no
    match, unconverted data after the match, or a value out of
    range. *)
Definition strptime (tzname : list string) (s fmt : string) : option datetime :=
  match parse_format fmt with
  | None => None
  | Some ts =>
      match match_toks tzname ts no_parts s with
      | [] => None
      | (p, rest) :: _ => if Str.truthy rest then None else build p
      end
  end.

End Datetime.

(* ================================================================== *)
(** ** [list.sort]

    CPython sorts with a merge sort of its own.  The model is the
    plainest stable sort that asks nothing but [<] of two keys, and
    agrees with it on what is stated here: a stable sort that returns,
    returns the one stable arrangement of the list in order, and no
    sort finishes without comparing two keys that do not compare when
    the list holds two such keys. *)

Module PySort.

(** What a call gives back: a value, or the [TypeError] of a comparison
    between values that do not compare. *)
Inductive outcome (A : Type) : Type :=
| Ok (x : A)
| TypeError.
Arguments Ok {A} x.
Arguments TypeError {A}.

Definition map_ok {A B : Type} (f : A -> B) (r : outcome A) : outcome B :=
  match r with
  | Ok x => Ok (f x)
  | TypeError => TypeError
  end.

Section Sort.
Context {A K : Type}.
Variable lt : K -> K -> option bool.
Variable key : A -> K.

(** [x] goes in front of the first element that is not smaller than it:
    only [<] is asked, and an element stays behind the equal ones that
    came before it. *)
Fixpoint insert (x : A) (l : list A) : outcome (list A) :=
  match l with
  | [] => Ok [x]
  | y :: l' =>
      match lt (key y) (key x) with
      | None => TypeError
      | Some true => map_ok (cons y) (insert x l')
      | Some false => Ok (x :: l)
      end
  end.

(** A stable ascending sort. *)
Fixpoint sort_asc (l : list A) : outcome (list A) :=
  match l with
  | [] => Ok []
  | x :: l' =>
      match sort_asc l' with
      | Ok s => insert x s
      | TypeError => TypeError
      end
  end.

(** [l.sort(key=key, reverse=reverse)]: with [reverse] the list is
    reversed, sorted ascending and reversed again, which keeps equal
    elements in their first order. *)
Definition list_sort (reverse : bool) (l : list A) : outcome (list A) :=
  if reverse then map_ok (@rev A) (sort_asc (rev l)) else sort_asc l.

End Sort.
End PySort.

Import PySort.

(* ================================================================== *)
(** ** The program *)

(** What a run takes from outside the program. *)
Record Host : Type := {
  (** [urlopen(req).read().decode(...)]; [None] is any exception of it *)
  urlopen : string -> option string;
  (** [ET.fromstring]; [None] is [ET.ParseError] *)
  fromstring : string -> option ET.Element;
  (** [html._replace_charref] on group 1 of a reference *)
  replace_charref : string -> string;
  (** [time.tzname] *)
  tzname : list string;
  (** seconds the local time is ahead of UTC at the epoch *)
  utcoffset : Z
}.

(** The dictionaries [parse_feed] yields. *)
Module Raw.
Record t : Type := mk {
  title : string; link : string; description : string; pub_date : string
}.
End Raw.

(** The dictionaries [build_articles] returns. *)
Module Article.
Record t : Type := mk {
  title : string; link : string; summary : string;
  pub_date : option Datetime.datetime
}.
End Article.

(** The message printed on a failure is left out: nothing reads it. *)
Definition fetch_rss (h : Host) (url : string) : string :=
  match urlopen h url with
  | Some body => body
  | None => EmptyString
  end.

(** The body of the loop of [parse_feed]. *)
Definition parse_item (item : ET.Element) : Raw.t :=
  let title := Str.strip (ET.findtext "title" "" item) in
  let link := Str.strip (ET.findtext "link" "" item) in
  let link :=
    if negb (Str.truthy link) then
      match ET.find "link" item with
      | Some link_elem => Str.strip (ET.get "href" "" link_elem)
      | None => link
      end
    else link in
  let description := Str.strip (ET.findtext "description" "" item) in
  let description :=
    if negb (Str.truthy description)
    then Str.strip (ET.findtext "content" "" item)
    else description in
  let pub_date := Str.strip (ET.findtext "pubDate" "" item) in
  let pub_date :=
    if negb (Str.truthy pub_date)
    then Str.strip (ET.findtext "updated" "" item)
    else pub_date in
  Raw.mk title link description pub_date.

(** [parse_feed] from the parsed document on. *)
Definition parse_root (root : ET.Element) : list Raw.t :=
  let items :=
    match ET.find "channel" root with
    | Some channel => ET.findall "item" channel
    | None => ET.findall "entry" root
    end in
  map parse_item items.

(** The generator is read to its end by its only caller, so it is kept
    as the list of what it yields; the message printed on a parse error
    is left out. *)
Definition parse_feed (h : Host) (xml_data : string) : list Raw.t :=
  if negb (Str.truthy xml_data) then []
  else
    match fromstring h xml_data with
    | None => []
    | Some root => parse_root root
    end.

(** [max_words] defaults to 50, which is what [build_articles] gets. *)
Definition summarise (h : Host) (text : string) (max_words : Z) : string :=
  let clean := Re.sub_tags text in
  let clean := Html.unescape (replace_charref h) clean in
  let words := Str.split clean in
  let summary_words := Str.slice_to words max_words in
  let summary := Str.join " " summary_words in
  if Z.of_nat (List.length words) >? max_words then summary ++ "..." else summary.

(** The formats of [build_articles], in the order it tries them. *)
Definition FORMATS : list string :=
  [ "%a, %d %b %Y %H:%M:%S %Z";
    "%Y-%m-%dT%H:%M:%SZ";
    "%Y-%m-%dT%H:%M:%S%z" ].

(** The [for fmt in ...: try ... break / except: continue] loop. *)
Fixpoint first_parse (h : Host) (pub_date_str : string) (fmts : list string)
  : option Datetime.datetime :=
  match fmts with
  | [] => None
  | fmt :: rest =>
      match Datetime.strptime (tzname h) pub_date_str fmt with
      | Some t => Some t
      | None => first_parse h pub_date_str rest
      end
  end.

Definition parse_date (h : Host) (pub_date_str : string) : option Datetime.datetime :=
  if Str.truthy pub_date_str then first_parse h pub_date_str FORMATS else None.

(** The dictionary appended for an item that has a title and a link. *)
Definition article_of (h : Host) (item : Raw.t) : Article.t :=
  let summary :=
    summarise h (if Str.truthy (Raw.description item)
                 then Raw.description item else Raw.title item) 50 in
  Article.mk (Raw.title item) (Raw.link item) summary
             (parse_date h (Raw.pub_date item)).

(** The inner loop of [build_articles] over the items of one feed. *)
Fixpoint collect_items (h : Host) (items : list Raw.t) : list Article.t :=
  match items with
  | [] => []
  | item :: rest =>
      if negb (Str.truthy (Raw.title item)) || negb (Str.truthy (Raw.link item))
      then collect_items h rest
      else article_of h item :: collect_items h rest
  end.

(** [articles] when the outer loop ends. *)
Definition collect (h : Host) (feed_urls : list string) : list Article.t :=
  flat_map (fun url => collect_items h (parse_feed h (fetch_rss h url))) feed_urls.

(** [a["pub_date"] or _dt.datetime.fromtimestamp(0)] *)
Definition sort_key (h : Host) (a : Article.t) : Datetime.datetime :=
  match Article.pub_date a with
  | Some t => t
  | None => Datetime.fromtimestamp0 (utcoffset h)
  end.

Definition build_articles (h : Host) (feed_urls : list string)
  : outcome (list Article.t) :=
  list_sort Datetime.lt (sort_key h) true (collect h feed_urls).

(* ================================================================== *)
(** ** [render_articles] and [main] *)

(** The double quote, the line feed and the no-break space. *)
Definition dq : string := String "034" EmptyString.
Definition nl : string := String "010" EmptyString.
Definition nbsp : string := String "160" EmptyString.

(** The dash of the page title is the one character of the program
    above 255; it stands as the three bytes [write_text] writes for
    it. *)
Definition en_dash : string := String "226" (String "128" (String "147" EmptyString)).

(** [name="value"] *)
Definition attr (name value : string) : string := name ++ "=" ++ dq ++ value ++ dq.

(** [str(n)] of an integer. *)
Definition str_of_int (n : Z) : string := NilZero.string_of_int (Z.to_int n).

(** Two digits, as [%d], [%H] and [%M] print a number below 100. *)
Definition pad2 (n : Z) : string :=
  if n <? 10 then "0" ++ str_of_int n else str_of_int n.

Definition month_abbr : list string :=
  ["Jan"; "Feb"; "Mar"; "Apr"; "May"; "Jun"; "Jul"; "Aug"; "Sep"; "Oct"; "Nov"; "Dec"].

(** [t.strftime("%d %b %Y %H:%M")] in the C locale: the wall-clock
    fields, whatever the offset.  The year is printed as the C library
    of Linux prints it, without padding. *)
Definition strftime (t : Datetime.datetime) : string :=
  pad2 (Datetime.day t) ++ " "
  ++ nth (Z.to_nat (Datetime.month t - 1)) month_abbr EmptyString ++ " "
  ++ str_of_int (Datetime.year t) ++ " "
  ++ pad2 (Datetime.hour t) ++ ":" ++ pad2 (Datetime.minute t).

(** The text appended for one article: the item template with its four
    fields filled in as they are. *)
Definition item_html (link title pub summary : string) : string :=
  nl
  ++ "        <li " ++ attr "class" "article" ++ ">" ++ nl
  ++ "            <h2 " ++ attr "class" "article-title" ++ "><a "
       ++ attr "href" link ++ " " ++ attr "target" "_blank" ++ " "
       ++ attr "rel" "noopener" ++ ">" ++ title ++ "</a></h2>" ++ nl
  ++ "            <p " ++ attr "class" "article-meta" ++ ">" ++ pub ++ "</p>" ++ nl
  ++ "            <p " ++ attr "class" "article-summary" ++ ">" ++ summary ++ "</p>" ++ nl
  ++ "            <p " ++ attr "class" "article-source" ++ "><a "
       ++ attr "href" link ++ " " ++ attr "target" "_blank" ++ " "
       ++ attr "rel" "noopener" ++ ">Read the full story</a></p>" ++ nl
  ++ "        </li>" ++ nl
  ++ "        ".

(** The body of the loop of [render_articles]. *)
Definition render_item (article : Article.t) : string :=
  let pub_str :=
    match Article.pub_date article with
    | Some t => strftime t
    | None => EmptyString
    end in
  item_html (Article.link article) (Article.title article) pub_str
            (Article.summary article).

Definition NO_ARTICLES : string :=
  "<p>No articles available at this time. Please try again later.</p>".

Definition LIST_OPEN : string := "<ul " ++ attr "class" "article-list" ++ ">".

Definition render_articles (articles : list Article.t) : string :=
  match articles with
  | [] => NO_ARTICLES
  | _ :: _ =>
      let parts :=
        fold_left (fun parts article => (parts ++ [render_item article])%list)
                  articles [LIST_OPEN] in
      Str.join nl (parts ++ ["</ul>"])
  end.

(** [HTML_TEMPLATE.format(articles_section=..., year=...)]: the text of
    the template once [textwrap.dedent] has taken four spaces off every
    line, with its two fields filled in. *)
Definition HTML_TEMPLATE (articles_section year : string) : string :=
  Str.join nl
    [ "";
      "<!DOCTYPE html>";
      "<html " ++ attr "lang" "en" ++ ">";
      "<head>";
      "    <meta " ++ attr "charset" "utf-8" ++ ">";
      "    <meta " ++ attr "name" "viewport" ++ " "
        ++ attr "content" "width=device-width, initial-scale=1" ++ ">";
      "    <title>Current" ++ nbsp ++ "Capital " ++ en_dash
        ++ " Business &amp; Finance News Summaries</title>";
      "    <link " ++ attr "rel" "stylesheet" ++ " " ++ attr "href" "style.css" ++ ">";
      "</head>";
      "<body>";
      "    <header " ++ attr "class" "site-header" ++ ">";
      "        <h1 " ++ attr "class" "site-title" ++ ">Current" ++ nbsp ++ "Capital</h1>";
      "        <p " ++ attr "class" "tagline"
        ++ ">Concise business and finance news with source links</p>";
      "    </header>";
      "    <main " ++ attr "class" "content" ++ ">";
      "        " ++ articles_section;
      "    </main>";
      "    <footer " ++ attr "class" "site-footer" ++ ">";
      "        <p>&copy; " ++ year ++ " Current" ++ nbsp ++ "Capital. All rights reserved.</p>";
      "        <p " ++ attr "class" "credits"
        ++ ">News summaries sourced from public feeds such as the BBC and The"
        ++ nbsp ++ "Guardian.</p>";
      "    </footer>";
      "</body>";
      "</html>";
      "" ].

(** The feeds of [main]. *)
Definition FEED_URLS : list string :=
  [ "https://feeds.theguardian.com/theguardian/uk/business/rss";
    "https://feeds.bbci.co.uk/news/business/rss.xml" ].

(** [main] as the text it writes to [index.html]; [year] is
    [datetime.now().year].  An exception of [build_articles] leaves the
    file unwritten.  Writing the file and printing its path are left
    out. *)
Definition main (h : Host) (year : Z) : outcome string :=
  map_ok (fun articles => HTML_TEMPLATE (render_articles articles) (str_of_int year))
         (build_articles h FEED_URLS).

(* ================================================================== *)
(** ** Vocabulary of the statements *)

(** The words of a text once its tags are stripped and its entities
    decoded. *)
Definition text_words (h : Host) (text : string) : list string :=
  Str.split (Html.unescape (replace_charref h) (Re.sub_tags text)).

(** A character that is neither whitespace nor the start of a tag or of
    a reference. *)
Definition plain_char (c : ascii) : bool :=
  negb (Str.isspace c || Re.is_lt c || Ascii.eqb c "&").

Definition plain (s : string) : bool := Str.all plain_char s.

(** An item that passes the filter of [build_articles]. *)
Definition qualifies (item : Raw.t) : bool :=
  Str.truthy (Raw.title item) && Str.truthy (Raw.link item).

(** Every item the feeds yield, in the order the loops meet them. *)
Definition raw_items (h : Host) (feed_urls : list string) : list Raw.t :=
  flat_map (fun url => parse_feed h (fetch_rss h url)) feed_urls.

(** The article carries the date [t]. *)
Definition dated (t : Datetime.datetime) (a : Article.t) : bool :=
  match Article.pub_date a with
  | Some u => Datetime.eqb u t
  | None => false
  end.

(** The article carries no date. *)
Definition undated (a : Article.t) : bool :=
  match Article.pub_date a with
  | Some _ => false
  | None => true
  end.

(** The sort keys of the two articles compare equal. *)
Definition same_key (h : Host) (a b : Article.t) : bool :=
  Datetime.eqb (sort_key h a) (sort_key h b).

(** *** Documents *)

Definition leaf (tag text : string) : ET.Element :=
  ET.mkElement tag [] (Some text) [].

Definition node (tag : string) (children : list ET.Element) : ET.Element :=
  ET.mkElement tag [] None children.

(** The RSS document whose items carry the four fields of [rs] as the
    text of [title], [link], [description] and [pubDate]. *)
Definition rss_item (r : Raw.t) : ET.Element :=
  node "item" [ leaf "title" (Raw.title r); leaf "link" (Raw.link r);
                leaf "description" (Raw.description r);
                leaf "pubDate" (Raw.pub_date r) ].

Definition rss_of (rs : list Raw.t) : ET.Element :=
  node "rss" [ node "channel"
    (leaf "title" "Feed" :: leaf "link" "http://example.org/" :: map rss_item rs) ].

(** The Atom-shaped document of the same fields: the link in an [href]
    attribute, the body in [content], the date in [updated]. *)
Definition atom_entry (r : Raw.t) : ET.Element :=
  node "entry" [ leaf "title" (Raw.title r);
                 ET.mkElement "link" [("href", Raw.link r)] None [];
                 leaf "content" (Raw.description r);
                 leaf "updated" (Raw.pub_date r) ].

Definition atom_of (rs : list Raw.t) : ET.Element :=
  node "feed" (leaf "title" "Feed" :: map atom_entry rs).

(** The same entries as the parser hands over an Atom document that
    declares its namespace: every tag carries the namespace in braces. *)
Definition atom_ns : string := "{http://www.w3.org/2005/Atom}".

Definition qualified_entry (r : Raw.t) : ET.Element :=
  node (atom_ns ++ "entry")
       [ leaf (atom_ns ++ "title") (Raw.title r);
         ET.mkElement (atom_ns ++ "link") [("href", Raw.link r)] None [];
         leaf (atom_ns ++ "content") (Raw.description r);
         leaf (atom_ns ++ "updated") (Raw.pub_date r) ].

Definition qualified_atom_of (rs : list Raw.t) : ET.Element :=
  node (atom_ns ++ "feed") (leaf (atom_ns ++ "title") "Feed" :: map qualified_entry rs).

Definition trim (r : Raw.t) : Raw.t :=
  Raw.mk (Str.strip (Raw.title r)) (Str.strip (Raw.link r))
         (Str.strip (Raw.description r)) (Str.strip (Raw.pub_date r)).

(** *** A host for the examples

    Five addresses: an RSS feed with one item dated in the RSS way, an
    Atom-shaped feed with one entry dated with a numeric offset, an RSS
    feed with one item that has no date, an RSS feed with two items of
    the 1960s and one whose date does not parse, and a feed whose text
    is cut short.  Every other address fails. *)

Definition rss_xml : string :=
  "<rss><channel><title>Desk</title><item><title>Rates held</title><link>http://example.org/rates</link><description>Rates held at five percent</description><pubDate>Wed, 01 May 2024 09:00:00 GMT</pubDate></item></channel></rss>".

Definition rss_doc : ET.Element :=
  node "rss" [ node "channel"
    [ leaf "title" "Desk";
      node "item" [ leaf "title" "Rates held";
                    leaf "link" "http://example.org/rates";
                    leaf "description" "Rates held at five percent";
                    leaf "pubDate" "Wed, 01 May 2024 09:00:00 GMT" ] ] ].

Definition atom_xml : string :=
  "<feed><title>Wire</title><entry><title>Bond sale</title><link href='http://example.org/bonds'/><updated>2024-05-01T10:00:00+01:00</updated></entry></feed>".

Definition atom_doc : ET.Element :=
  node "feed"
    [ leaf "title" "Wire";
      node "entry" [ leaf "title" "Bond sale";
                     ET.mkElement "link" [("href", "http://example.org/bonds")] None [];
                     leaf "updated" "2024-05-01T10:00:00+01:00" ] ].

Definition nodate_xml : string :=
  "<rss><channel><item><title>Late edition</title><link>http://example.org/late</link></item></channel></rss>".

Definition nodate_doc : ET.Element :=
  node "rss" [ node "channel"
    [ node "item" [ leaf "title" "Late edition";
                    leaf "link" "http://example.org/late" ] ] ].

Definition archive_xml : string :=
  "<rss><channel><item><title>Devaluation</title><link>http://example.org/1965</link><pubDate>Fri, 01 Jan 1965 00:00:00 GMT</pubDate></item><item><title>Bank rate</title><link>http://example.org/1960</link><pubDate>Fri, 01 Jan 1960 00:00:00 GMT</pubDate></item><item><title>Undated</title><link>http://example.org/undated</link><pubDate>yesterday</pubDate></item></channel></rss>".

Definition archive_doc : ET.Element :=
  node "rss" [ node "channel"
    [ node "item" [ leaf "title" "Devaluation";
                    leaf "link" "http://example.org/1965";
                    leaf "pubDate" "Fri, 01 Jan 1965 00:00:00 GMT" ];
      node "item" [ leaf "title" "Bank rate";
                    leaf "link" "http://example.org/1960";
                    leaf "pubDate" "Fri, 01 Jan 1960 00:00:00 GMT" ];
      node "item" [ leaf "title" "Undated";
                    leaf "link" "http://example.org/undated";
                    leaf "pubDate" "yesterday" ] ] ].

Definition broken_xml : string := "<rss><channel><item>".

Definition rss_url : string := "http://example.org/rss".
Definition atom_url : string := "http://example.org/atom".
Definition nodate_url : string := "http://example.org/nodate".
Definition archive_url : string := "http://example.org/archive".
Definition broken_url : string := "http://example.org/broken".
Definition down_url : string := "http://example.org/down".

Fixpoint lookup {V : Type} (k : string) (table : list (string * V)) : option V :=
  match table with
  | [] => None
  | (k', v) :: rest => if String.eqb k k' then Some v else lookup k rest
  end.

Definition demo : Host := {|
  urlopen := fun url =>
    lookup url [ (rss_url, rss_xml); (atom_url, atom_xml);
                 (nodate_url, nodate_xml); (archive_url, archive_xml);
                 (broken_url, broken_xml) ];
  fromstring := fun xml_data =>
    lookup xml_data [ (rss_xml, rss_doc); (atom_xml, atom_doc);
                      (nodate_xml, nodate_doc); (archive_xml, archive_doc) ];
  replace_charref := Html.xml_charref;
  tzname := ["UTC"; "UTC"];
  utcoffset := 0
|}.

(** Fifty words, for the examples of the word limit. *)
Definition fifty_words : string := Str.join " " (repeat "word" 50).

(** Decoding the references of [w] gives [w'], whatever follows [w]. *)
Definition decodes (rc : string -> string) (w w' : string) : Prop :=
  forall r, Html.sub_charrefs rc 0 (w ++ r) = w' ++ Html.sub_charrefs rc 0 r.

(** What [summarise] makes of the words of a text. *)
Definition summary_of (words : list string) : string :=
  Str.join " " (firstn 50 words)
  ++ (if (50 <? List.length words)%nat then "..." else "").

(** The articles of the example feeds. *)
Definition rates_held : Article.t :=
  Article.mk "Rates held" "http://example.org/rates" "Rates held at five percent"
             (Some (Datetime.mk 2024 5 1 9 0 0 None)).

Definition bond_sale : Article.t :=
  Article.mk "Bond sale" "http://example.org/bonds" "Bond sale"
             (Some (Datetime.mk 2024 5 1 10 0 0 (Some 3600000000))).

Definition late_edition : Article.t :=
  Article.mk "Late edition" "http://example.org/late" "Late edition" None.

Definition devaluation : Article.t :=
  Article.mk "Devaluation" "http://example.org/1965" "Devaluation"
             (Some (Datetime.mk 1965 1 1 0 0 0 None)).

Definition bank_rate : Article.t :=
  Article.mk "Bank rate" "http://example.org/1960" "Bank rate"
             (Some (Datetime.mk 1960 1 1 0 0 0 None)).

Definition undated_item : Article.t :=
  Article.mk "Undated" "http://example.org/undated" "Undated" None.

(** *** Further vocabulary *)

(** [x] stands in [s] as it is. *)
Definition occurs_in (x s : string) : Prop := exists pre post, s = pre ++ x ++ post.

(** [e] appended to the last word of [ws], or alone when there is none. *)
Fixpoint append_last (ws : list string) (e : string) : list string :=
  match ws with
  | [] => [e]
  | [w] => [w ++ e]
  | w :: ws' => w :: append_last ws' e
  end.

(** The words of the summary of a text of the words [words]. *)
Definition summary_words (words : list string) (max_words : Z) : list string :=
  if Z.of_nat (List.length words) >? max_words
  then append_last (Str.slice_to words max_words) "..."
  else Str.slice_to words max_words.

(** The feed fails: no download, an empty text, or a text that does not
    parse. *)
Definition feed_fails (h : Host) (url : string) : Prop :=
  urlopen h url = None \/ fetch_rss h url = "" \/ fromstring h (fetch_rss h url) = None.

(** Every character of [s] is whitespace. *)
Definition blank (s : string) : bool := Str.all Str.isspace s.

(** *** A host whose first feed carries markup written with entities

    The description of the item is the text [&lt;script&gt;], which the
    document writes with its ampersands escaped in turn.  The second
    feed of [main] fails. *)

Definition hostile_xml : string :=
  "<rss><channel><item><title>Breaking</title><link>http://example.org/b</link><description>&amp;lt;script&amp;gt;</description></item></channel></rss>".

Definition hostile_doc : ET.Element :=
  node "rss" [ node "channel"
    [ node "item" [ leaf "title" "Breaking";
                    leaf "link" "http://example.org/b";
                    leaf "description" "&lt;script&gt;" ] ] ].

Definition hostile : Host := {|
  urlopen := fun url =>
    lookup url [ ("https://feeds.theguardian.com/theguardian/uk/business/rss",
                  hostile_xml) ];
  fromstring := fun xml_data => lookup xml_data [ (hostile_xml, hostile_doc) ];
  replace_charref := Html.xml_charref;
  tzname := ["UTC"; "UTC"];
  utcoffset := 0
|}.

(** The literal tag that the tag [&lt;t&gt;], written with entities,
    decodes to. *)
Definition decoded_tag (h : Host) (t : string) : string :=
  "<" ++ Html.unescape (replace_charref h) t ++ ">".

(** [out] is [raw] without the whitespace at its two ends. *)
Definition starts_clean (s : string) : bool :=
  match s with
  | EmptyString => true
  | String c _ => negb (Str.isspace c)
  end.

Fixpoint ends_clean (s : string) : bool :=
  match s with
  | EmptyString => true
  | String c r =>
      match r with
      | EmptyString => negb (Str.isspace c)
      | String _ _ => ends_clean r
      end
  end.

Definition trims (raw out : string) : Prop :=
  exists a b, raw = a ++ out ++ b /\ blank a = true /\ blank b = true /\
              starts_clean out = true /\ ends_clean out = true.

(** *** A host with one story in three documents

    The story as an RSS document, as an Atom document that declares the
    Atom namespace, as every Atom document does, and as the same
    document with the declaration left out.  The parser hands over the
    elements of the second with the namespace in their tags. *)

Definition gilts : Raw.t :=
  Raw.mk "Bond sale" "http://example.org/bonds" "Gilts sold at auction"
         "2024-05-01T10:00:00Z".

Definition gilts_article : Article.t :=
  Article.mk "Bond sale" "http://example.org/bonds" "Gilts sold at auction"
             (Some (Datetime.mk 2024 5 1 10 0 0 None)).

Definition wire_rss_xml : string :=
  "<rss><channel><title>Feed</title><link>http://example.org/</link><item><title>Bond sale</title><link>http://example.org/bonds</link><description>Gilts sold at auction</description><pubDate>2024-05-01T10:00:00Z</pubDate></item></channel></rss>".

Definition wire_atom_xml : string :=
  "<feed xmlns='http://www.w3.org/2005/Atom'><title>Feed</title><entry><title>Bond sale</title><link href='http://example.org/bonds'/><content>Gilts sold at auction</content><updated>2024-05-01T10:00:00Z</updated></entry></feed>".

Definition wire_bare_xml : string :=
  "<feed><title>Feed</title><entry><title>Bond sale</title><link href='http://example.org/bonds'/><content>Gilts sold at auction</content><updated>2024-05-01T10:00:00Z</updated></entry></feed>".

Definition wire_rss_url : string := "http://example.org/wire.rss".
Definition wire_atom_url : string := "http://example.org/wire.atom".
Definition wire_bare_url : string := "http://example.org/wire.xml".

Definition wire : Host := {|
  urlopen := fun url =>
    lookup url [ (wire_rss_url, wire_rss_xml); (wire_atom_url, wire_atom_xml);
                 (wire_bare_url, wire_bare_xml) ];
  fromstring := fun xml_data =>
    lookup xml_data [ (wire_rss_xml, rss_of [gilts]);
                      (wire_atom_xml, qualified_atom_of [gilts]);
                      (wire_bare_xml, atom_of [gilts]) ];
  replace_charref := Html.xml_charref;
  tzname := ["UTC"; "UTC"];
  utcoffset := 0
|}.

(* ================================================================== *)
(** ** Facts about the string functions *)

Section StrFacts.

Lemma append_empty_r (s : string) : s ++ "" = s.
Proof. induction s as [|c s IH]; simpl; [reflexivity | now rewrite IH]. Qed.

Lemma append_assoc (a b c : string) : (a ++ b) ++ c = a ++ (b ++ c).
Proof. induction a as [|x a IH]; simpl; [reflexivity | now rewrite IH]. Qed.

Lemma all_app (p : ascii -> bool) (a b : string) :
  Str.all p (a ++ b) = Str.all p a && Str.all p b.
Proof.
  induction a as [|c a IH]; simpl; [reflexivity|].
  now rewrite IH, andb_assoc.
Qed.

Lemma truthy_not_empty (s : string) : Str.truthy s = true <-> s <> EmptyString.
Proof. destruct s; simpl; split; congruence. Qed.

(** *** [strip] *)

Lemma lstrip_head (s : string) :
  match Str.lstrip s with
  | EmptyString => True
  | String c _ => Str.isspace c = false
  end.
Proof.
  induction s as [|c s IH]; simpl; [exact I|].
  destruct (Str.isspace c) eqn:E; [exact IH | exact E].
Qed.

Lemma rstrip_head (c : ascii) (s : string) :
  Str.isspace c = false -> exists r, Str.rstrip (String c s) = String c r.
Proof.
  intros Hc. simpl. destruct (Str.rstrip s); rewrite ?Hc; eauto.
Qed.

Lemma lstrip_spec (s : string) :
  exists a, s = a ++ Str.lstrip s /\ blank a = true.
Proof.
  induction s as [|c s (a & Ha & Hb)]; [now exists ""|].
  cbn [Str.lstrip]. destruct (Str.isspace c) eqn:E.
  - exists (String c a). cbn [append]. rewrite <- Ha. split; [reflexivity|].
    unfold blank in *. cbn [Str.all]. now rewrite E, Hb.
  - now exists "".
Qed.

Lemma rstrip_spec (s : string) :
  exists b, s = Str.rstrip s ++ b /\ blank b = true /\ ends_clean (Str.rstrip s) = true.
Proof.
  induction s as [|c s (b & Hs & Hb & He)]; [now exists ""|].
  cbn [Str.rstrip]. destruct (Str.rstrip s) as [|d r] eqn:E.
  - cbn [append] in Hs. subst b. destruct (Str.isspace c) eqn:Ec.
    + exists (String c s). split; [reflexivity|]. split; [|reflexivity].
      unfold blank in *. cbn [Str.all]. now rewrite Ec, Hb.
    + exists s. split; [reflexivity|]. split; [exact Hb|].
      cbn [ends_clean]. now rewrite Ec.
  - exists b. split; [cbn [append]; f_equal; exact Hs|]. split; [exact Hb|].
    exact He.
Qed.

(** [strip] takes the whitespace off the two ends, and nothing else. *)
Lemma strip_trims (s : string) : trims s (Str.strip s).
Proof.
  unfold Str.strip.
  destruct (lstrip_spec s) as (a & Ha & Hba).
  destruct (rstrip_spec (Str.lstrip s)) as (b & Hb & Hbb & He).
  exists a, b. split; [now rewrite <- Hb|]. split; [exact Hba|]. split; [exact Hbb|].
  split; [|exact He].
  pose proof (lstrip_head s) as H.
  destruct (Str.lstrip s) as [|c t]; [reflexivity|].
  destruct (rstrip_head c t H) as [r ->]. cbn [starts_clean]. now rewrite H.
Qed.

(** *** [split] and [join] *)

Lemma words_from_word (w cur r : string) :
  Str.all Str.nonspace w = true ->
  Str.words_from cur (w ++ r) = Str.words_from (cur ++ w) r.
Proof.
  revert cur. induction w as [|c w IH]; intros cur Hw; simpl.
  - now rewrite append_empty_r.
  - simpl in Hw. apply andb_true_iff in Hw as [Hc Hw].
    unfold Str.nonspace in Hc. apply negb_true_iff in Hc. rewrite Hc.
    rewrite IH by exact Hw. now rewrite append_assoc.
Qed.

Lemma split_word_space (w r : string) :
  Str.is_word w -> Str.split (w ++ String " " r) = w :: Str.split r.
Proof.
  intros [Hne Hw]. unfold Str.split.
  rewrite words_from_word by exact Hw. simpl.
  apply truthy_not_empty in Hne. now rewrite Hne.
Qed.

Lemma split_word (w : string) : Str.is_word w -> Str.split w = [w].
Proof.
  intros [Hne Hw]. unfold Str.split.
  rewrite <- (append_empty_r w) at 1.
  rewrite words_from_word by exact Hw. simpl.
  apply truthy_not_empty in Hne. now rewrite Hne.
Qed.

Lemma split_join (ws : list string) :
  Forall Str.is_word ws -> Str.split (Str.join " " ws) = ws.
Proof.
  induction 1 as [|w ws Hw Hws IH]; [reflexivity|].
  destruct ws as [|v ws].
  - simpl. now apply split_word.
  - change (Str.join " " (w :: v :: ws)) with (w ++ String " " (Str.join " " (v :: ws))).
    rewrite split_word_space by exact Hw. now rewrite IH.
Qed.

(** Every word [split] yields is one: not empty and free of whitespace. *)
Lemma words_from_words (s cur : string) :
  Str.all Str.nonspace cur = true -> Forall Str.is_word (Str.words_from cur s).
Proof.
  revert cur. induction s as [|c s IH]; intros cur Hcur; simpl.
  - destruct (Str.truthy cur) eqn:E; constructor; [|constructor].
    split; [now apply truthy_not_empty | exact Hcur].
  - destruct (Str.isspace c) eqn:Ec.
    + destruct (Str.truthy cur) eqn:E.
      * constructor; [split; [now apply truthy_not_empty | exact Hcur]|].
        now apply IH.
      * now apply IH.
    + apply IH. rewrite all_app, Hcur. simpl. unfold Str.nonspace. now rewrite Ec.
Qed.

Lemma split_words (s : string) : Forall Str.is_word (Str.split s).
Proof. now apply words_from_words. Qed.

End StrFacts.

(* ================================================================== *)
(** ** [summarise] *)

Section TagsAndReferences.

Lemma mem_app (c : ascii) (a b : string) :
  Str.mem c (a ++ b) = Str.mem c a || Str.mem c b.
Proof.
  induction a as [|d a IH]; simpl; [reflexivity|].
  now rewrite IH, orb_assoc.
Qed.

Lemma plain_inv (s : string) :
  plain s = true ->
  Str.all Str.nonspace s = true /\ Str.mem "<" s = false /\ Str.mem "&" s = false.
Proof.
  unfold plain. induction s as [|c s IH]; cbn [Str.all Str.mem]; [now auto|].
  intros H. apply andb_true_iff in H as [Hc Hs].
  destruct (IH Hs) as (H1 & H2 & H3). rewrite H1, H2, H3.
  unfold plain_char, Re.is_lt in Hc. apply negb_true_iff in Hc.
  apply orb_false_iff in Hc as [Hc Hamp]. apply orb_false_iff in Hc as [Hsp Hlt].
  unfold Str.nonspace. rewrite Hsp.
  rewrite (Ascii.eqb_sym "<" c), (Ascii.eqb_sym "&" c), Hlt, Hamp. now auto.
Qed.

(** A text without [<] holds no tag. *)
Lemma sub_tags_no_lt (s : string) : Str.mem "<" s = false -> Re.sub_tags s = s.
Proof.
  unfold Re.sub_tags.
  induction s as [|c s IH]; cbn [Str.mem Re.sub_tags_from]; intros H; [reflexivity|].
  apply orb_false_iff in H as [Hc Hs].
  unfold Re.is_lt. rewrite Ascii.eqb_sym, Hc. cbn [andb]. now rewrite IH.
Qed.

Variable rc : string -> string.

Lemma sub_charrefs_no_amp (s : string) :
  Str.mem "&" s = false -> Html.sub_charrefs rc 0 s = s.
Proof.
  induction s as [|c s IH]; cbn [Str.mem Html.sub_charrefs]; intros H; [reflexivity|].
  apply orb_false_iff in H as [Hc Hs].
  rewrite Ascii.eqb_sym, Hc. now rewrite IH.
Qed.

(** The shortcut of [unescape] changes nothing. *)
Lemma unescape_scan (s : string) : Html.unescape rc s = Html.sub_charrefs rc 0 s.
Proof.
  unfold Html.unescape. destruct (Str.mem "&" s) eqn:E; simpl; [reflexivity|].
  symmetry. now apply sub_charrefs_no_amp.
Qed.

Lemma decodes_plain (a : string) : Str.mem "&" a = false -> decodes rc a a.
Proof.
  intros H r. induction a as [|c a IH]; [reflexivity|].
  cbn [Str.mem] in H. apply orb_false_iff in H as [Hc Ha].
  cbn [append Html.sub_charrefs]. rewrite Ascii.eqb_sym, Hc. now rewrite IH.
Qed.

Lemma decodes_app (a a' b b' : string) :
  decodes rc a a' -> decodes rc b b' -> decodes rc (a ++ b) (a' ++ b').
Proof.
  intros Ha Hb r. now rewrite !append_assoc, Ha, Hb.
Qed.

Lemma decodes_lt : rc "lt;" = "<" -> decodes rc "&lt;" "<".
Proof. intros H r. cbn. now rewrite H. Qed.

Lemma decodes_gt : rc "gt;" = ">" -> decodes rc "&gt;" ">".
Proof. intros H r. cbn. now rewrite H. Qed.

Lemma decodes_all (s s' : string) : decodes rc s s' -> Html.unescape rc s = s'.
Proof.
  intros H. rewrite unescape_scan. specialize (H ""). cbn in H.
  now rewrite !append_empty_r in H.
Qed.

End TagsAndReferences.

Lemma mem_join (c : ascii) (ws : list string) :
  Str.mem c " " = false -> Forall (fun w => Str.mem c w = false) ws ->
  Str.mem c (Str.join " " ws) = false.
Proof.
  intros Hsp. induction 1 as [|w ws Hw Hws IH]; [reflexivity|].
  destruct ws as [|v ws]; [exact Hw|].
  change (Str.join " " (w :: v :: ws)) with (w ++ " " ++ Str.join " " (v :: ws)).
  now rewrite !mem_app, Hw, Hsp, IH.
Qed.


(** [summarise] with the limit of 50 words is [summary_of] the words. *)
Lemma summarise_summary_of (h : Host) (text : string) :
  summarise h text 50 = summary_of (text_words h text).
Proof.
  unfold summarise, summary_of. fold (text_words h text).
  replace (Str.slice_to (text_words h text) 50)
    with (firstn 50 (text_words h text)) by reflexivity.
  destruct (Z.of_nat (List.length (text_words h text)) >? 50) eqn:E;
    destruct (50 <? List.length (text_words h text))%nat eqn:F.
  - reflexivity.
  - apply Z.gtb_lt in E. apply Nat.ltb_ge in F. lia.
  - apply Nat.ltb_lt in F. rewrite Z.gtb_ltb in E. apply Z.ltb_ge in E. lia.
  - now rewrite append_empty_r.
Qed.

(** C4. With the limit of 50 words, [summarise] returns the words of the
    tag-stripped, entity-decoded text joined by single spaces when there
    are at most 50 of them, and otherwise exactly the first 50 joined by
    single spaces with ["..."] appended directly; the words are not
    empty and hold no whitespace, and the empty text gives the empty
    summary. *)
Theorem summarise_word_limit (h : Host) (text : string) :
  let words := text_words h text in
  Forall Str.is_word words /\
  ((List.length words <= 50)%nat -> summarise h text 50 = Str.join " " words) /\
  ((50 < List.length words)%nat ->
     summarise h text 50 = Str.join " " (firstn 50 words) ++ "..." /\
     List.length (firstn 50 words) = 50%nat) /\
  summarise h "" 50 = "".
Proof.
  intros words. split; [apply split_words|].
  rewrite summarise_summary_of. fold words. unfold summary_of.
  split; [|split].
  - intros Hle. rewrite firstn_all2 by exact Hle.
    apply Nat.ltb_ge in Hle. rewrite Hle. apply append_empty_r.
  - intros Hlt. split.
    + apply Nat.ltb_lt in Hlt. now rewrite Hlt.
    + apply firstn_length_le. lia.
  - reflexivity.
Qed.

Lemma summarise_word_limit_witness :
  summarise demo "<p>Shares   rose</p>" 50 = "Shares rose" /\
  summarise demo (fifty_words ++ " more") 50 = fifty_words ++ "...".
Proof.
  split.
  - destruct (summarise_word_limit demo "<p>Shares   rose</p>") as (_ & Hle & _).
    rewrite Hle; [reflexivity | vm_compute; lia].
  - destruct (summarise_word_limit demo (fifty_words ++ " more")) as (_ & _ & Hgt & _).
    destruct Hgt as [Hgt _]; [vm_compute; lia|].
    rewrite Hgt. reflexivity.
Defined.

Lemma mem_sub_tags_from (c : ascii) (b : bool) (s : string) :
  Str.mem c s = false -> Str.mem c (Re.sub_tags_from b s) = false.
Proof.
  revert b. induction s as [|d s IH]; intros b H; [reflexivity|].
  cbn [Str.mem] in H. apply orb_false_iff in H as [Hd Hs].
  cbn [Re.sub_tags_from]. destruct b; [now apply IH|].
  destruct (Re.is_lt d && Re.opens_tag s); [now apply IH|].
  cbn [Str.mem]. now rewrite Hd, IH.
Qed.

(** What is left of a text that opens no tag opens none. *)
Lemma opens_tag_sub_tags (r : string) :
  Re.opens_tag r = false -> Re.opens_tag (Re.sub_tags_from false r) = false.
Proof.
  destruct r as [|d r]; [reflexivity|]. cbn [Re.opens_tag Re.sub_tags_from].
  intros H. apply andb_false_iff in H as [Hd|Hr].
  - apply negb_false_iff in Hd.
    assert (Hlt : Re.is_lt d = false).
    { unfold Re.is_gt, Re.is_lt in *. apply Ascii.eqb_eq in Hd. now subst d. }
    rewrite Hlt. cbn [andb Re.opens_tag]. now rewrite Hd.
  - assert (Hopen : Re.opens_tag r = false).
    { destruct r as [|e r]; [reflexivity|]. cbn [Re.opens_tag].
      cbn [Str.mem] in Hr. apply orb_false_iff in Hr as [_ Hr].
      rewrite Hr. apply andb_false_r. }
    rewrite Hopen, andb_false_r. cbn [Re.opens_tag].
    rewrite (mem_sub_tags_from ">" false r Hr). apply andb_false_r.
Qed.

Lemma sub_tags_from_idem (b : bool) (s : string) :
  Re.sub_tags_from false (Re.sub_tags_from b s) = Re.sub_tags_from b s.
Proof.
  revert b. induction s as [|c s IH]; intros b; [reflexivity|].
  cbn [Re.sub_tags_from]. destruct b; [apply IH|].
  destruct (Re.is_lt c && Re.opens_tag s) eqn:E; [apply IH|].
  cbn [Re.sub_tags_from]. rewrite IH.
  apply andb_false_iff in E as [E|E].
  - now rewrite E.
  - now rewrite (opens_tag_sub_tags s E), andb_false_r.
Qed.

(** Stripping removes every tag: the stripped text holds none. *)
Lemma sub_tags_idem (text : string) :
  Re.sub_tags (Re.sub_tags text) = Re.sub_tags text.
Proof. apply sub_tags_from_idem. Qed.

(** C9. [summarise] strips the tags first and decodes the references of
    what is left: its words are those of [unescape (sub_tags text)], the
    stripped text holds no tag any more, and the text of the example
    comes out with its tags removed and its entity decoded. *)
Theorem summarise_strips_then_decodes (h : Host) :
  replace_charref h "amp;" = "&" ->
  (forall text,
     summarise h text 50
     = summary_of (Str.split (Html.unescape (replace_charref h) (Re.sub_tags text)))) /\
  (forall text, Re.sub_tags (Re.sub_tags text) = Re.sub_tags text) /\
  Re.sub_tags "<b>Markets</b> rally &amp; climb" = "Markets rally &amp; climb" /\
  Html.unescape (replace_charref h) "Markets rally &amp; climb" = "Markets rally & climb" /\
  summarise h "<b>Markets</b> rally &amp; climb" 50 = "Markets rally & climb".
Proof.
  intros Hamp.
  assert (Hdec : Html.unescape (replace_charref h) "Markets rally &amp; climb"
                 = "Markets rally & climb").
  { apply decodes_all.
    change (decodes (replace_charref h) ("Markets rally " ++ "&amp;" ++ " climb")
                    ("Markets rally " ++ "&" ++ " climb")).
    apply decodes_app; [now apply decodes_plain|].
    apply decodes_app; [|now apply decodes_plain].
    intros r. cbn. now rewrite Hamp. }
  split; [intros text; apply summarise_summary_of|].
  split; [exact sub_tags_idem|].
  split; [reflexivity|]. split; [exact Hdec|].
  rewrite summarise_summary_of. unfold text_words.
  replace (Re.sub_tags "<b>Markets</b> rally &amp; climb")
    with "Markets rally &amp; climb" by reflexivity.
  rewrite Hdec. reflexivity.
Qed.

Lemma summarise_strips_then_decodes_witness :
  summarise demo "<b>Markets</b> rally &amp; climb" 50 = "Markets rally & climb".
Proof.
  apply (summarise_strips_then_decodes demo). reflexivity.
Defined.

(** C10, as stated, fails: an entity-encoded tag that is the 51st word
    is cut with the rest, one inside the attribute of a real tag is
    stripped with that tag, and neither summary holds a [<]; one with
    two spaces inside comes out with a single space, not as it was
    written. *)
Lemma encoded_tag_lost :
  summarise demo (fifty_words ++ " &lt;script&gt;") 50 = fifty_words ++ "..." /\
  Str.mem "<" (summarise demo (fifty_words ++ " &lt;script&gt;") 50) = false /\
  summarise demo "<a title='&lt;script&gt;'>link</a>" 50 = "link" /\
  summarise demo "&lt;a  href='x'&gt;" 50 = "<a href='x'>".
Proof. repeat split; vm_compute; reflexivity. Qed.

(* ================================================================== *)
(** ** [parse_feed] *)

Section ParseFeedFacts.

Lemma not_truthy_empty (s : string) : Str.truthy s = false -> s = EmptyString.
Proof. destruct s; simpl; [reflexivity | discriminate]. Qed.

Lemma strip_or_empty (s : string) :
  (if negb (Str.truthy (Str.strip s)) then Str.strip "" else Str.strip s) = Str.strip s.
Proof.
  destruct (Str.truthy (Str.strip s)) eqn:E; simpl; [reflexivity|].
  now rewrite (not_truthy_empty _ E).
Qed.

Lemma parse_rss_item (r : Raw.t) : parse_item (rss_item r) = trim r.
Proof.
  destruct r as [t l d p]. unfold parse_item, rss_item, trim.
  cbn [Raw.title Raw.link Raw.description Raw.pub_date].
  change (ET.findtext "title" "" _) with t.
  change (ET.findtext "link" "" _) with l.
  change (ET.findtext "description" "" _) with d.
  change (ET.findtext "pubDate" "" _) with p.
  change (ET.findtext "content" "" _) with "".
  change (ET.findtext "updated" "" _) with "".
  change (ET.find "link" _) with (Some (leaf "link" l)).
  change (ET.get "href" "" (leaf "link" l)) with "".
  now rewrite !strip_or_empty.
Qed.

Lemma parse_atom_entry (r : Raw.t) : parse_item (atom_entry r) = trim r.
Proof.
  destruct r as [t l d p]. unfold parse_item, atom_entry, trim.
  cbn [Raw.title Raw.link Raw.description Raw.pub_date].
  change (ET.findtext "title" "" _) with t.
  change (ET.findtext "link" "" _) with "".
  change (ET.findtext "description" "" _) with "".
  change (ET.findtext "pubDate" "" _) with "".
  change (ET.findtext "content" "" _) with d.
  change (ET.findtext "updated" "" _) with p.
  change (ET.find "link" _) with (Some (ET.mkElement "link" [("href", l)] None [])).
  reflexivity.
Qed.

Lemma findall_rss_items (rs : list Raw.t) :
  filter (ET.has_tag "item") (map rss_item rs) = map rss_item rs.
Proof. induction rs as [|r rs IH]; [reflexivity|]. cbn. now f_equal. Qed.

Lemma findall_atom_entries (rs : list Raw.t) :
  filter (ET.has_tag "entry") (map atom_entry rs) = map atom_entry rs.
Proof. induction rs as [|r rs IH]; [reflexivity|]. cbn. now f_equal. Qed.

Lemma parse_rss_of (rs : list Raw.t) : parse_root (rss_of rs) = map trim rs.
Proof.
  unfold parse_root, rss_of.
  change (ET.find "channel" _)
    with (Some (node "channel" (leaf "title" "Feed" :: leaf "link" "http://example.org/"
                                  :: map rss_item rs))).
  cbv beta iota.
  change (ET.findall "item" _) with (filter (ET.has_tag "item") (map rss_item rs)).
  rewrite findall_rss_items, map_map. apply map_ext, parse_rss_item.
Qed.

Lemma find_channel_atom (rs : list Raw.t) :
  List.find (ET.has_tag "channel") (map atom_entry rs) = None.
Proof. induction rs as [|r rs IH]; [reflexivity|]. exact IH. Qed.

Lemma parse_atom_of (rs : list Raw.t) : parse_root (atom_of rs) = map trim rs.
Proof.
  unfold parse_root, atom_of.
  change (ET.find "channel" _) with (List.find (ET.has_tag "channel") (map atom_entry rs)).
  rewrite find_channel_atom. cbv beta iota.
  change (ET.findall "entry" _) with (filter (ET.has_tag "entry") (map atom_entry rs)).
  rewrite findall_atom_entries, map_map. apply map_ext, parse_atom_entry.
Qed.

Lemma findtext_absent (path : string) (item : ET.Element) :
  ET.find path item = None -> ET.findtext path "" item = "".
Proof. unfold ET.findtext. now intros ->. Qed.

End ParseFeedFacts.

(** Documents whose elements carry the plain tags.  [parse_feed] reads
    the items of a document with a [channel] child from the [item]
    children of that child, and of any other document from its [entry]
    children; every field it yields is the text of its element without
    the whitespace at its two ends, a field whose elements are all
    absent is the empty string, the link, description and date fall
    back to [href], [content] and [updated], and the Atom-shaped
    document of some fields, its tags written without a namespace,
    parses into the same dictionaries as the RSS document of those
    fields. *)
Theorem parse_feed_plain_tags (h : Host) :
  (forall xml_data root,
     Str.truthy xml_data = true -> fromstring h xml_data = Some root ->
     parse_feed h xml_data
     = map parse_item
           match ET.find "channel" root with
           | Some channel => ET.findall "item" channel
           | None => ET.findall "entry" root
           end) /\
  (forall item,
     let r := parse_item item in
     let text_of path := Str.strip (ET.findtext path "" item) in
     Raw.title r = text_of "title" /\
     Raw.link r
     = (if Str.truthy (text_of "link") then text_of "link"
        else match ET.find "link" item with
             | Some link_elem => Str.strip (ET.get "href" "" link_elem)
             | None => ""
             end) /\
     Raw.description r
     = (if Str.truthy (text_of "description") then text_of "description"
        else text_of "content") /\
     Raw.pub_date r
     = (if Str.truthy (text_of "pubDate") then text_of "pubDate"
        else text_of "updated")) /\
  (forall s, trims s (Str.strip s)) /\
  (forall item,
     let absent path := ET.find path item = None in
     (absent "title" -> Raw.title (parse_item item) = "") /\
     (absent "link" -> Raw.link (parse_item item) = "") /\
     (absent "description" -> absent "content" ->
      Raw.description (parse_item item) = "") /\
     (absent "pubDate" -> absent "updated" -> Raw.pub_date (parse_item item) = "")) /\
  (forall rs, parse_root (rss_of rs) = map trim rs /\
              parse_root (atom_of rs) = parse_root (rss_of rs)) /\
  (forall rs rss_text atom_text,
     Str.truthy rss_text = true -> Str.truthy atom_text = true ->
     fromstring h rss_text = Some (rss_of rs) ->
     fromstring h atom_text = Some (atom_of rs) ->
     parse_feed h atom_text = parse_feed h rss_text).
Proof.
  split; [|split; [|split; [|split; [|split]]]].
  - intros xml_data root Ht Hroot. unfold parse_feed. now rewrite Ht, Hroot.
  - intros item r text_of.
    repeat split; unfold r, text_of, parse_item;
      cbn [Raw.title Raw.link Raw.description Raw.pub_date].
    + destruct (Str.truthy (Str.strip (ET.findtext "link" "" item))) eqn:E;
        cbn [negb]; [reflexivity|].
      destruct (ET.find "link" item); [reflexivity | now apply not_truthy_empty].
    + now destruct (Str.truthy (Str.strip (ET.findtext "description" "" item))).
    + now destruct (Str.truthy (Str.strip (ET.findtext "pubDate" "" item))).
  - exact strip_trims.
  - intros item absent. subst absent. cbv beta. unfold parse_item.
    cbn [Raw.title Raw.link Raw.description Raw.pub_date].
    repeat split.
    + intros H. now rewrite (findtext_absent _ _ H).
    + intros H. now rewrite (findtext_absent _ _ H), H.
    + intros H1 H2. now rewrite (findtext_absent _ _ H1), (findtext_absent _ _ H2).
    + intros H1 H2. now rewrite (findtext_absent _ _ H1), (findtext_absent _ _ H2).
  - intros rs. now rewrite parse_atom_of, parse_rss_of.
  - intros rs rss_text atom_text Hr Ha Hrss Hatom. unfold parse_feed.
    now rewrite Hr, Ha, Hrss, Hatom, parse_atom_of, parse_rss_of.
Qed.

Lemma parse_feed_plain_tags_witness :
  parse_feed demo atom_xml
  = [ Raw.mk "Bond sale" "http://example.org/bonds" "" "2024-05-01T10:00:00+01:00" ].
Proof.
  destruct (parse_feed_plain_tags demo) as [H _].
  rewrite (H atom_xml atom_doc); reflexivity.
Defined.

Lemma findall_qualified (rs : list Raw.t) :
  filter (ET.has_tag "entry") (map qualified_entry rs) = [].
Proof. induction rs as [|r rs IH]; [reflexivity | exact IH]. Qed.

Lemma find_channel_qualified (rs : list Raw.t) :
  List.find (ET.has_tag "channel") (map qualified_entry rs) = None.
Proof. induction rs as [|r rs IH]; [reflexivity | exact IH]. Qed.

(** Tags are compared as they are written: the entries of an Atom
    document that declares its namespace are tagged with it, are not
    found under the name [entry], and yield nothing. *)
Theorem qualified_atom_yields_nothing (rs : list Raw.t) :
  parse_root (qualified_atom_of rs) = [].
Proof.
  unfold parse_root, qualified_atom_of.
  change (ET.find "channel" _)
    with (List.find (ET.has_tag "channel") (map qualified_entry rs)).
  rewrite find_channel_qualified.
  change (ET.findall "entry" _)
    with (filter (ET.has_tag "entry") (map qualified_entry rs)).
  now rewrite findall_qualified.
Qed.

(* ================================================================== *)
(** ** [list.sort] *)

Section SortFacts.
Context {A K : Type}.
Variable lt : K -> K -> option bool.
Variable key : A -> K.

(** The comparison is the [<] of a rank between keys of one class and
    raises between keys of two. *)
Variable cls : K -> bool.
Variable rank : K -> Z.
Hypothesis lt_spec : forall a b,
  lt a b = if Bool.eqb (cls a) (cls b) then Some (rank a <? rank b) else None.

Local Abbreviation insert := (PySort.insert lt key).
Local Abbreviation sort_asc := (PySort.sort_asc lt key).
Local Abbreviation list_sort := (PySort.list_sort lt key).
Local Abbreviation le := (fun a b : A => rank (key a) <= rank (key b)).
Local Abbreviation ge := (fun a b : A => rank (key b) <= rank (key a)).
Local Abbreviation one_class l :=
  (forall a b : A, In a l -> In b l -> cls (key a) = cls (key b)).

Lemma map_ok_inv {X Y : Type} (f : X -> Y) (r : outcome X) (y : Y) :
  map_ok f r = Ok y -> exists x, r = Ok x /\ y = f x.
Proof. destruct r; simpl; [|discriminate]. intros [= <-]. eauto. Qed.

Lemma insert_perm (x : A) (l r : list A) :
  insert x l = Ok r -> Permutation (x :: l) r.
Proof.
  revert r. induction l as [|y l IH]; simpl; intros r H.
  - injection H as <-. reflexivity.
  - destruct (lt (key y) (key x)) as [[|]|]; [| |discriminate].
    + apply map_ok_inv in H as (r' & Hr' & ->).
      rewrite perm_swap. constructor. now apply IH.
    + injection H as <-. reflexivity.
Qed.

Lemma sort_asc_perm (l s : list A) : sort_asc l = Ok s -> Permutation l s.
Proof.
  revert s. induction l as [|x l IH]; simpl; intros s H.
  - injection H as <-. constructor.
  - destruct (sort_asc l) as [s'|]; [|discriminate].
    rewrite <- (insert_perm _ _ _ H). constructor. now apply IH.
Qed.

Lemma list_sort_perm (reverse : bool) (l s : list A) :
  list_sort reverse l = Ok s -> Permutation l s.
Proof.
  unfold PySort.list_sort. destruct reverse; [|apply sort_asc_perm].
  intros H. apply map_ok_inv in H as (s' & Hs' & ->).
  rewrite <- Permutation_rev. apply sort_asc_perm in Hs'.
  now rewrite <- Hs', <- Permutation_rev.
Qed.

(** *** The result is in order *)

Lemma insert_sorted (x : A) (l r : list A) :
  StronglySorted le l -> insert x l = Ok r -> StronglySorted le r.
Proof.
  revert r. induction l as [|y l IH]; simpl; intros r Hs H.
  - injection H as <-. repeat constructor.
  - apply StronglySorted_inv in Hs as [Hs Hy].
    rewrite lt_spec in H. destruct (Bool.eqb _ _); [|discriminate].
    destruct (rank (key y) <? rank (key x)) eqn:E.
    + apply map_ok_inv in H as (r' & Hr' & ->).
      constructor; [now apply IH|].
      apply (Permutation_Forall (insert_perm _ _ _ Hr')).
      constructor; [apply Z.ltb_lt in E; lia | exact Hy].
    + injection H as <-. apply Z.ltb_ge in E.
      constructor; [now constructor|].
      constructor; [exact E|].
      eapply Forall_impl; [|exact Hy]. cbv beta. intros z Hz. lia.
Qed.

Lemma sort_asc_sorted (l s : list A) : sort_asc l = Ok s -> StronglySorted le s.
Proof.
  revert s. induction l as [|x l IH]; simpl; intros s H.
  - injection H as <-. constructor.
  - destruct (sort_asc l) as [s'|]; [|discriminate].
    eapply insert_sorted; [|exact H]. now apply IH.
Qed.

Lemma sorted_snoc (R : A -> A -> Prop) (l : list A) (x : A) :
  StronglySorted R l -> Forall (fun y => R y x) l -> StronglySorted R (l ++ [x])%list.
Proof.
  induction 1 as [|y l Hs IH Hy]; simpl; intros Hx.
  - repeat constructor.
  - apply Forall_cons_iff in Hx as [Hyx Hx].
    constructor; [now apply IH|].
    apply Forall_app. split; [exact Hy | now constructor].
Qed.

Lemma sorted_rev (R : A -> A -> Prop) (l : list A) :
  StronglySorted R l -> StronglySorted (fun a b => R b a) (rev l).
Proof.
  induction 1 as [|y l Hs IH Hy]; simpl; [constructor|].
  apply sorted_snoc; [exact IH|].
  apply Forall_rev. exact Hy.
Qed.

Lemma list_sort_descending (l s : list A) :
  list_sort true l = Ok s -> StronglySorted ge s.
Proof.
  unfold PySort.list_sort. intros H.
  apply map_ok_inv in H as (s' & Hs' & ->).
  apply (sorted_rev le). now apply sort_asc_sorted in Hs'.
Qed.

(** *** The sort is stable *)

Lemma insert_stable (p : A -> bool) (r0 : Z) (x : A) (l r : list A) :
  (forall a, p a = true -> rank (key a) = r0) ->
  insert x l = Ok r -> filter p r = filter p (x :: l).
Proof.
  intros Hp. revert r. induction l as [|y l IH]; simpl; intros r H.
  - now injection H as <-.
  - rewrite lt_spec in H. destruct (Bool.eqb _ _); [|discriminate].
    destruct (rank (key y) <? rank (key x)) eqn:E.
    + apply map_ok_inv in H as (r' & Hr' & ->).
      simpl. rewrite (IH _ Hr'). simpl.
      destruct (p x) eqn:Px, (p y) eqn:Py; try reflexivity.
      apply Hp in Px, Py. apply Z.ltb_lt in E. lia.
    + now injection H as <-.
Qed.

Lemma sort_asc_stable (p : A -> bool) (r0 : Z) (l s : list A) :
  (forall a, p a = true -> rank (key a) = r0) ->
  sort_asc l = Ok s -> filter p s = filter p l.
Proof.
  intros Hp. revert s. induction l as [|x l IH]; simpl; intros s H.
  - now injection H as <-.
  - destruct (sort_asc l) as [s'|]; [|discriminate].
    rewrite (insert_stable p r0 _ _ _ Hp H). simpl. now rewrite (IH s').
Qed.

(** The elements of one rank that [p] selects keep their order. *)
Lemma list_sort_stable (p : A -> bool) (r0 : Z) (reverse : bool) (l s : list A) :
  (forall a, p a = true -> rank (key a) = r0) ->
  list_sort reverse l = Ok s -> filter p s = filter p l.
Proof.
  intros Hp. unfold PySort.list_sort. destruct reverse; [|now apply (sort_asc_stable p r0)].
  intros H. apply map_ok_inv in H as (s' & Hs' & ->).
  rewrite filter_rev, (sort_asc_stable p r0 _ _ Hp Hs'), filter_rev.
  apply rev_involutive.
Qed.

(** *** When the sort raises *)

Lemma insert_returns (x : A) (l : list A) :
  (forall y, In y l -> cls (key y) = cls (key x)) -> exists r, insert x l = Ok r.
Proof.
  induction l as [|y l IH]; simpl; intros H; [eauto|].
  rewrite lt_spec, (H y (or_introl eq_refl)), Bool.eqb_reflx.
  destruct (rank (key y) <? rank (key x)); [|eauto].
  destruct IH as [r ->]; [auto|]. simpl. eauto.
Qed.

Lemma insert_ok_class (x y : A) (l r : list A) :
  insert x (y :: l) = Ok r -> cls (key y) = cls (key x).
Proof.
  simpl. rewrite lt_spec. destruct (Bool.eqb _ _) eqn:E; [|discriminate].
  intros _. now apply Bool.eqb_prop.
Qed.

Lemma sort_asc_returns (l : list A) : one_class l -> exists s, sort_asc l = Ok s.
Proof.
  induction l as [|x l IH]; simpl; intros H; [eauto|].
  destruct IH as [s Hs]; [auto|]. rewrite Hs.
  apply insert_returns. intros y Hy. apply H; [right|now left].
  apply (Permutation_in _ (Permutation_sym (sort_asc_perm _ _ Hs))). exact Hy.
Qed.

Lemma sort_asc_ok_class (l s : list A) : sort_asc l = Ok s -> one_class l.
Proof.
  revert s. induction l as [|x l IH]; simpl; intros s H; [now intros a b []|].
  destruct (sort_asc l) as [s'|] eqn:Hs'; [|discriminate].
  specialize (IH s' eq_refl).
  assert (Hx : forall a, In a l -> cls (key a) = cls (key x)).
  { intros a Ha. destruct s' as [|y s'].
    - apply (Permutation_in _ (sort_asc_perm _ _ Hs')) in Ha. destruct Ha.
    - rewrite <- (insert_ok_class _ _ _ _ H). apply IH; [exact Ha|].
      apply (Permutation_in _ (Permutation_sym (sort_asc_perm _ _ Hs'))). now left. }
  intros a b [<-|Ha] [<-|Hb]; auto. symmetry. auto.
Qed.

(** The sort returns exactly when the keys are of one class. *)
Lemma list_sort_returns_iff (reverse : bool) (l : list A) :
  (exists s, list_sort reverse l = Ok s) <-> one_class l.
Proof.
  unfold PySort.list_sort. destruct reverse.
  - split.
    + intros [s H]. apply map_ok_inv in H as (s' & Hs' & _).
      pose proof (sort_asc_ok_class _ _ Hs') as Hc. intros a b Ha Hb.
      apply Hc; now apply -> in_rev.
    + intros H. destruct (sort_asc_returns (rev l)) as [s Hs].
      * intros a b Ha Hb. apply H; now apply in_rev.
      * rewrite Hs. simpl. eauto.
  - split; [intros [s H]; exact (sort_asc_ok_class _ _ H) | apply sort_asc_returns].
Qed.

End SortFacts.

(* ================================================================== *)
(** ** [build_articles] *)

Section BuildArticlesFacts.
Variable h : Host.

Lemma datetime_lt_spec (a b : Datetime.datetime) :
  Datetime.lt a b
  = if Bool.eqb (Datetime.aware a) (Datetime.aware b)
    then Some (Datetime.instant a <? Datetime.instant b) else None.
Proof. reflexivity. Qed.

Lemma collect_items_filter (items : list Raw.t) :
  collect_items h items = map (article_of h) (filter qualifies items).
Proof.
  induction items as [|item items IH]; [reflexivity|].
  cbn [collect_items filter]. unfold qualifies at 1.
  destruct (Str.truthy (Raw.title item)), (Str.truthy (Raw.link item));
    cbn [negb orb andb map]; now rewrite IH.
Qed.

Lemma collect_filter (feed_urls : list string) :
  collect h feed_urls = map (article_of h) (filter qualifies (raw_items h feed_urls)).
Proof.
  unfold collect, raw_items.
  induction feed_urls as [|url urls IH]; [reflexivity|].
  cbn [flat_map]. now rewrite filter_app, map_app, IH, collect_items_filter.
Qed.

Lemma collect_app (us vs : list string) :
  collect h (us ++ vs) = (collect h us ++ collect h vs)%list.
Proof. apply flat_map_app. Qed.

(** The articles whose key has the instant of [k] keep their order. *)
Lemma build_articles_keeps_rank (feed_urls : list string) (out : list Article.t)
    (p : Article.t -> bool) (r0 : Z) :
  (forall a, p a = true -> Datetime.instant (sort_key h a) = r0) ->
  build_articles h feed_urls = Ok out ->
  filter p out = filter p (collect h feed_urls).
Proof.
  intros Hp H.
  exact (list_sort_stable Datetime.lt (sort_key h) Datetime.aware Datetime.instant
           datetime_lt_spec p r0 true _ _ Hp H).
Qed.

Lemma instant_eqb (a b : Datetime.datetime) :
  Datetime.eqb a b = true -> Datetime.instant a = Datetime.instant b.
Proof.
  unfold Datetime.eqb. intros H. apply andb_true_iff in H as [_ H].
  now apply Z.eqb_eq.
Qed.

End BuildArticlesFacts.

(** The articles collected are those of the items that have a title and
    a link, one for each.  [build_articles] returns whenever no date
    among them is offset-aware, and whenever it returns, the list it
    returns is a rearrangement of those articles: as many as there are
    such items, and none of an item that lacks a title or a link. *)
Theorem build_articles_one_per_item (h : Host) (feed_urls : list string) :
  let items := filter qualifies (raw_items h feed_urls) in
  collect h feed_urls = map (article_of h) items /\
  ((forall item t, In item items -> parse_date h (Raw.pub_date item) = Some t ->
                   Datetime.aware t = false) ->
   exists out, build_articles h feed_urls = Ok out) /\
  (forall out,
     build_articles h feed_urls = Ok out ->
     Permutation out (map (article_of h) items) /\
     List.length out = List.length items /\
     Forall (fun a => exists item, In item (raw_items h feed_urls) /\
                        a = article_of h item /\
                        Raw.title item <> "" /\ Raw.link item <> "") out).
Proof.
  intros items. split; [apply collect_filter|]. split.
  - intros Hnaive.
    apply (list_sort_returns_iff Datetime.lt (sort_key h) Datetime.aware
             Datetime.instant datetime_lt_spec true).
    assert (Hkey : forall a, In a (collect h feed_urls) ->
                             Datetime.aware (sort_key h a) = false).
    { intros a Ha. rewrite collect_filter in Ha.
      apply in_map_iff in Ha as (item & <- & Hi).
      unfold sort_key, article_of. cbn [Article.pub_date].
      destruct (parse_date h (Raw.pub_date item)) as [t|] eqn:E; [|reflexivity].
      exact (Hnaive item t Hi E). }
    intros a b Ha Hb. now rewrite (Hkey a Ha), (Hkey b Hb).
  - intros out H. unfold build_articles in H. apply list_sort_perm in H.
    rewrite collect_filter in H. apply Permutation_sym in H. fold items in H.
    split; [exact H|]. split.
    + rewrite (Permutation_length H). apply length_map.
    + apply Forall_forall. intros a Ha.
      apply (Permutation_in _ H) in Ha. apply in_map_iff in Ha as (item & <- & Hi).
      apply filter_In in Hi as [Hi Hq]. exists item.
      unfold qualifies in Hq. apply andb_true_iff in Hq as [Ht Hl].
      repeat split; [exact Hi | now apply truthy_not_empty..].
Qed.

Lemma build_articles_one_per_item_witness :
  List.length (raw_items demo [rss_url; archive_url; nodate_url]) = 5%nat /\
  Permutation [rates_held; undated_item; late_edition; devaluation; bank_rate]
    (map (article_of demo)
         (filter qualifies (raw_items demo [rss_url; archive_url; nodate_url]))).
Proof.
  split; [reflexivity|].
  apply (build_articles_one_per_item demo [rss_url; archive_url; nodate_url]).
  vm_compute. reflexivity.
Defined.

(** C5. The empty text and a text that does not parse yield no item.  A
    feed whose download fails, or whose text is empty or does not
    parse, adds nothing to the articles collected, and the result of
    [build_articles] is the one the other feeds alone give. *)
Theorem failed_feed_adds_nothing (h : Host) (front back : list string) (bad : string) :
  urlopen h bad = None \/ fetch_rss h bad = "" \/ fromstring h (fetch_rss h bad) = None ->
  parse_feed h "" = [] /\
  (forall xml_data, fromstring h xml_data = None -> parse_feed h xml_data = []) /\
  parse_feed h (fetch_rss h bad) = [] /\
  collect h (front ++ bad :: back) = (collect h front ++ collect h back)%list /\
  build_articles h (front ++ bad :: back) = build_articles h (front ++ back).
Proof.
  intros Hbad.
  assert (Hxml : forall xml_data, fromstring h xml_data = None -> parse_feed h xml_data = []).
  { intros xml_data Hx. unfold parse_feed. rewrite Hx. now destruct (Str.truthy xml_data). }
  assert (Hnone : parse_feed h (fetch_rss h bad) = []).
  { destruct Hbad as [Hu|[He|Hp]].
    - unfold fetch_rss. now rewrite Hu.
    - now rewrite He.
    - now apply Hxml. }
  assert (Hcollect : collect h (front ++ bad :: back)
                     = (collect h front ++ collect h back)%list).
  { rewrite !collect_app. f_equal. unfold collect at 1. cbn [flat_map].
    now rewrite Hnone. }
  repeat split; try assumption.
  unfold build_articles. now rewrite Hcollect, collect_app.
Qed.

Lemma failed_feed_adds_nothing_witness :
  build_articles demo [rss_url; down_url; archive_url]
  = build_articles demo [rss_url; archive_url] /\
  build_articles demo [rss_url; broken_url; archive_url]
  = build_articles demo [rss_url; archive_url].
Proof.
  split.
  - apply (failed_feed_adds_nothing demo [rss_url] [archive_url] down_url).
    left. reflexivity.
  - apply (failed_feed_adds_nothing demo [rss_url] [archive_url] broken_url).
    right. right. reflexivity.
Defined.

(** C8. When [build_articles] returns, the articles that carry one and
    the same date stand in its list in the order in which they were
    collected (feed by feed, item by item), and so do the articles
    without a date, and more generally the articles of equal sort
    key. *)
Theorem build_articles_stable (h : Host) (feed_urls : list string)
    (out : list Article.t) :
  build_articles h feed_urls = Ok out ->
  (forall t, filter (dated t) out = filter (dated t) (collect h feed_urls)) /\
  filter undated out = filter undated (collect h feed_urls) /\
  (forall a, filter (same_key h a) out = filter (same_key h a) (collect h feed_urls)).
Proof.
  intros H. repeat split.
  - intros t. apply (build_articles_keeps_rank h _ _ _ (Datetime.instant t)); [|exact H].
    intros a. unfold dated, sort_key. destruct (Article.pub_date a); [|discriminate].
    apply instant_eqb.
  - apply (build_articles_keeps_rank h _ _ _
             (Datetime.instant (Datetime.fromtimestamp0 (utcoffset h)))); [|exact H].
    intros a. unfold undated, sort_key. now destruct (Article.pub_date a).
  - intros a. apply (build_articles_keeps_rank h _ _ _
                       (Datetime.instant (sort_key h a))); [|exact H].
    intros b Hb. symmetry. now apply instant_eqb.
Qed.

Lemma build_articles_stable_witness :
  exists out,
    build_articles demo [archive_url; rss_url; nodate_url] = Ok out /\
    filter undated out = [undated_item; late_edition].
Proof.
  eexists. split; [vm_compute; reflexivity|].
  apply (build_articles_stable demo [archive_url; rss_url; nodate_url]).
  vm_compute. reflexivity.
Defined.

(** *** Where the sort goes wrong *)

(** C1 fails on the code.  Two feeds, one with an item dated in the RSS
    way (a naive date), one with an entry dated with a numeric offset
    (an aware date): the sort compares the two dates and
    [build_articles] raises.  It raises as well when the entry with the
    offset meets an item without a date, whose key is the naive
    [fromtimestamp(0)]. *)
Theorem build_articles_raises_on_mixed_dates :
  collect demo [rss_url; atom_url] = [rates_held; bond_sale] /\
  build_articles demo [rss_url; atom_url] = TypeError /\
  collect demo [atom_url; nodate_url] = [bond_sale; late_edition] /\
  build_articles demo [atom_url; nodate_url] = TypeError.
Proof. repeat split; vm_compute; reflexivity. Qed.

(** C2 fails on the code.  The key of an article without a date is
    [fromtimestamp(0)], the start of 1970 in local time, not the oldest
    date: with two items dated 1965 and 1960 and one whose date does
    not parse, the undated article comes first. *)
Theorem build_articles_undated_before_old_dates :
  collect demo [archive_url] = [devaluation; bank_rate; undated_item] /\
  build_articles demo [archive_url] = Ok [undated_item; devaluation; bank_rate].
Proof. split; vm_compute; reflexivity. Qed.

(** C6 fails on the code in its last part.  The date ["yesterday"]
    matches no format and the empty date is not tried: both give no
    value.  The article is collected, and is then neither sorted last
    (it stands before the articles of the 1960s) nor in any output when
    another feed carries a date with an offset. *)
Theorem unparsed_date_article_misplaced :
  parse_date demo "yesterday" = None /\
  parse_date demo "" = None /\
  In undated_item (collect demo [archive_url; rss_url]) /\
  build_articles demo [archive_url; rss_url]
  = Ok [rates_held; undated_item; devaluation; bank_rate] /\
  build_articles demo [archive_url; atom_url] = TypeError.
Proof.
  repeat split; try (vm_compute; reflexivity).
  vm_compute. tauto.
Qed.

(** *** What holds of the sort *)

Lemma outcome_cases {X : Type} (r : outcome X) : r = TypeError \/ exists x, r = Ok x.
Proof. destruct r; eauto. Qed.

(** [build_articles] raises exactly when the keys of two collected
    articles are an aware and a naive date. *)
Theorem build_articles_raises_iff (h : Host) (feed_urls : list string) :
  build_articles h feed_urls = TypeError <->
  exists a b, In a (collect h feed_urls) /\ In b (collect h feed_urls) /\
              Datetime.aware (sort_key h a) = true /\
              Datetime.aware (sort_key h b) = false.
Proof.
  pose proof (list_sort_returns_iff Datetime.lt (sort_key h) Datetime.aware
                Datetime.instant datetime_lt_spec true (collect h feed_urls)) as Hiff.
  fold (build_articles h feed_urls) in Hiff.
  split.
  - intros Hraise.
    destruct (existsb (fun a => Datetime.aware (sort_key h a)) (collect h feed_urls))
      eqn:Ea.
    + apply existsb_exists in Ea as (a & Ha & Haw).
      destruct (existsb (fun b => negb (Datetime.aware (sort_key h b)))
                        (collect h feed_urls)) eqn:Eb.
      * apply existsb_exists in Eb as (b & Hb & Hnv). apply negb_true_iff in Hnv.
        now exists a, b.
      * exfalso. destruct Hiff as [_ [out Hout]]; [|congruence].
        intros x y Hx Hy.
        assert (Hall : forall z, In z (collect h feed_urls) ->
                                 Datetime.aware (sort_key h z) = true).
        { intros z Hz. destruct (Datetime.aware (sort_key h z)) eqn:E; [reflexivity|].
          assert (existsb (fun b => negb (Datetime.aware (sort_key h b)))
                          (collect h feed_urls) = true); [|congruence].
          apply existsb_exists. exists z. now rewrite E. }
        now rewrite (Hall x Hx), (Hall y Hy).
    + exfalso. destruct Hiff as [_ [out Hout]]; [|congruence].
      intros x y Hx Hy.
      assert (Hall : forall z, In z (collect h feed_urls) ->
                               Datetime.aware (sort_key h z) = false).
      { intros z Hz. destruct (Datetime.aware (sort_key h z)) eqn:E; [|reflexivity].
        assert (existsb (fun a => Datetime.aware (sort_key h a))
                        (collect h feed_urls) = true); [|congruence].
        apply existsb_exists. now exists z. }
      now rewrite (Hall x Hx), (Hall y Hy).
  - intros (a & b & Ha & Hb & Haw & Hnv).
    destruct (outcome_cases (build_articles h feed_urls)) as [Hr|[out Hout]];
      [exact Hr|].
    destruct Hiff as [Hcls _]. specialize (Hcls (ex_intro _ out Hout) a b Ha Hb).
    congruence.
Qed.

Lemma build_articles_sorted (h : Host) (feed_urls : list string)
    (out : list Article.t) :
  build_articles h feed_urls = Ok out ->
  StronglySorted (fun a b => Datetime.instant (sort_key h b)
                             <= Datetime.instant (sort_key h a)) out.
Proof.
  intros H.
  exact (list_sort_descending Datetime.lt (sort_key h) Datetime.aware Datetime.instant
           datetime_lt_spec _ _ H).
Qed.

(** When [build_articles] returns, its list runs from the latest key to
    the earliest, and is a rearrangement of the articles collected. *)
Theorem build_articles_descending (h : Host) (feed_urls : list string)
    (out : list Article.t) :
  build_articles h feed_urls = Ok out ->
  Permutation (collect h feed_urls) out /\
  StronglySorted (fun a b => Datetime.instant (sort_key h b)
                             <= Datetime.instant (sort_key h a)) out.
Proof.
  intros H. split; [|exact (build_articles_sorted _ _ _ H)].
  unfold build_articles in H. now apply list_sort_perm in H.
Qed.

Lemma build_articles_descending_witness :
  StronglySorted (fun a b => Datetime.instant (sort_key demo b)
                             <= Datetime.instant (sort_key demo a))
                 [rates_held; undated_item; devaluation; bank_rate].
Proof.
  apply (build_articles_descending demo [archive_url; rss_url]).
  vm_compute. reflexivity.
Defined.

Lemma sorted_before {X : Type} (R : X -> X -> Prop) (l1 l2 : list X) (a u : X) :
  StronglySorted R (l1 ++ a :: l2)%list -> In u l1 -> R u a.
Proof.
  induction l1 as [|x l1 IH]; simpl; intros Hs Hu; [destruct Hu|].
  apply StronglySorted_inv in Hs as [Hs Hx]. destruct Hu as [<-|Hu].
  - rewrite Forall_app in Hx. destruct Hx as [_ Hx]. now inversion Hx.
  - now apply IH.
Qed.

(** When [build_articles] returns, an article dated later than
    [fromtimestamp(0)] stands before every article without a date. *)
Theorem undated_after_later_dates (h : Host) (feed_urls : list string)
    (out : list Article.t) (a u : Article.t) (t : Datetime.datetime) :
  build_articles h feed_urls = Ok out ->
  In a out -> In u out ->
  Article.pub_date a = Some t -> undated u = true ->
  Datetime.instant (Datetime.fromtimestamp0 (utcoffset h)) < Datetime.instant t ->
  exists l1 l2 l3, out = (l1 ++ a :: l2 ++ u :: l3)%list.
Proof.
  intros H Ha Hu Hdate Hund Hlater.
  apply build_articles_sorted in H.
  assert (Hka : Datetime.instant (sort_key h a) = Datetime.instant t)
    by (unfold sort_key; now rewrite Hdate).
  assert (Hku : Datetime.instant (sort_key h u)
                = Datetime.instant (Datetime.fromtimestamp0 (utcoffset h))).
  { unfold sort_key, undated in *. now destruct (Article.pub_date u). }
  apply in_split in Ha as (l1 & l2 & ->).
  apply in_app_or in Hu as [Hu|[Hu|Hu]].
  - apply (sorted_before _ _ _ _ _ H) in Hu. cbv beta in Hu. lia.
  - subst u. unfold undated in Hund. now rewrite Hdate in Hund.
  - apply in_split in Hu as (l2a & l3 & ->). now exists l1, l2a, l3.
Qed.

Lemma undated_after_later_dates_witness :
  exists l1 l2 l3,
    [rates_held; undated_item; devaluation; bank_rate]
    = (l1 ++ rates_held :: l2 ++ undated_item :: l3)%list.
Proof.
  apply (undated_after_later_dates demo [archive_url; rss_url] _ _ _
           (Datetime.mk 2024 5 1 9 0 0 None)).
  - vm_compute. reflexivity.
  - now left.
  - right. now left.
  - reflexivity.
  - reflexivity.
  - vm_compute. reflexivity.
Defined.

(* ================================================================== *)
(** ** The dates [build_articles] parses *)

Section DateFacts.
Import Datetime.
Variable tz : list string.

Lemma match_tok_zone (t : tok) (p p' : parts) (s r : string) :
  t <> Dir D_z -> In (p', r) (match_tok tz t p s) -> p_zone p' = p_zone p.
Proof.
  intros Ht Hin. destruct p as [y mo d hh mi se z].
  destruct t as [c| |[]]; cbn [match_tok] in Hin; try congruence;
    try (apply in_map_iff in Hin as ([v r'] & [= <- <-] & _); reflexivity).
  - destruct s as [|b s]; [destruct Hin|].
    destruct (Ascii.eqb (Str.lower b) (Str.lower c)); [|destruct Hin].
    destruct Hin as [[= <- <-]|[]]. reflexivity.
  - apply in_map_iff in Hin as (r' & [= <- <-] & _). reflexivity.
Qed.

Lemma match_toks_zone (ts : list tok) (p p' : parts) (s r : string) :
  Forall (fun t => t <> Dir D_z) ts ->
  In (p', r) (match_toks tz ts p s) -> p_zone p' = p_zone p.
Proof.
  intros Hts. revert p s. induction Hts as [|t ts Ht Hts IH]; intros p s Hin.
  - destruct Hin as [[= <- <-]|[]]. reflexivity.
  - cbn [match_toks] in Hin. apply in_flat_map in Hin as ([p1 r1] & H1 & H2).
    rewrite (IH _ _ H2). now apply (match_tok_zone t p p1 s r1).
Qed.

Lemma match_toks_zone_last (ts : list tok) (p p' : parts) (s r : string) :
  In (p', r) (match_toks tz (ts ++ [Dir D_z]) p s) -> exists z, p_zone p' = Some z.
Proof.
  revert p s. induction ts as [|t ts IH]; intros p s Hin;
    cbn [app match_toks] in Hin; apply in_flat_map in Hin as ([p1 r1] & H1 & H2).
  - destruct H2 as [[= <- <-]|[]]. destruct p as [y mo d hh mi se z].
    cbn [match_tok] in H1. apply in_map_iff in H1 as ([v r'] & [= <- _] & _).
    now exists v.
  - now apply (IH p1 r1).
Qed.

Lemma build_aware (p : parts) (t : datetime) :
  build p = Some t ->
  aware t = match p_zone p with Some _ => true | None => false end.
Proof.
  unfold build. destruct (valid_date _ _ _ && _); [|discriminate].
  destruct (p_zone p) as [z|]; [|now intros [= <-]].
  destruct (gmtoff z) as [off|]; [|discriminate].
  destruct (Z.abs off <? 86400000000); [|discriminate]. now intros [= <-].
Qed.

Lemma strptime_naive (s fmt : string) (ts : list tok) (t : datetime) :
  parse_format fmt = Some ts -> Forall (fun t => t <> Dir D_z) ts ->
  strptime tz s fmt = Some t -> aware t = false.
Proof.
  intros Hfmt Hts. unfold strptime. rewrite Hfmt.
  destruct (match_toks tz ts no_parts s) as [|[p rest] l] eqn:E; [discriminate|].
  destruct (Str.truthy rest); [discriminate|]. intros Hb.
  rewrite (build_aware _ _ Hb).
  now rewrite (match_toks_zone ts no_parts p s rest Hts) by (rewrite E; now left).
Qed.

Lemma strptime_aware (s fmt : string) (ts : list tok) (t : datetime) :
  parse_format fmt = Some (ts ++ [Dir D_z])%list ->
  strptime tz s fmt = Some t -> aware t = true.
Proof.
  intros Hfmt. unfold strptime. rewrite Hfmt.
  destruct (match_toks tz (ts ++ [Dir D_z]) no_parts s) as [|[p rest] l] eqn:E;
    [discriminate|].
  destruct (Str.truthy rest); [discriminate|]. intros Hb.
  rewrite (build_aware _ _ Hb).
  destruct (match_toks_zone_last ts no_parts p s rest) as [z ->];
    [rewrite E; now left | reflexivity].
Qed.

End DateFacts.

(** The date of an item is the first success among the three formats,
    tried in the order RSS date with a zone name, ISO date ending in
    [Z], ISO date with a numeric offset; no date is tried on the empty
    string, and the string that matches none gives no value.  A date
    of the first two formats is naive, one of the third is aware. *)
Theorem parse_date_by_format (h : Host) (s : string) :
  let attempt fmt := Datetime.strptime (tzname h) s fmt in
  FORMATS = [ "%a, %d %b %Y %H:%M:%S %Z"; "%Y-%m-%dT%H:%M:%SZ"; "%Y-%m-%dT%H:%M:%S%z" ] /\
  parse_date h s
  = (if Str.truthy s then
       match attempt "%a, %d %b %Y %H:%M:%S %Z" with
       | Some t => Some t
       | None =>
           match attempt "%Y-%m-%dT%H:%M:%SZ" with
           | Some t => Some t
           | None => attempt "%Y-%m-%dT%H:%M:%S%z"
           end
       end
     else None) /\
  parse_date h "" = None /\
  (forall t, attempt "%a, %d %b %Y %H:%M:%S %Z" = Some t -> Datetime.aware t = false) /\
  (forall t, attempt "%Y-%m-%dT%H:%M:%SZ" = Some t -> Datetime.aware t = false) /\
  (forall t, attempt "%Y-%m-%dT%H:%M:%S%z" = Some t -> Datetime.aware t = true).
Proof.
  intros attempt. subst attempt. cbv beta. split; [reflexivity|]. split.
  - unfold parse_date, FORMATS. cbn [first_parse].
    destruct (Str.truthy s); [|reflexivity].
    destruct (Datetime.strptime (tzname h) s "%a, %d %b %Y %H:%M:%S %Z"); [reflexivity|].
    destruct (Datetime.strptime (tzname h) s "%Y-%m-%dT%H:%M:%SZ"); [reflexivity|].
    now destruct (Datetime.strptime (tzname h) s "%Y-%m-%dT%H:%M:%S%z").
  - split; [reflexivity|]. repeat split; intros t Ht.
    + refine (strptime_naive _ _ _ _ _ _ _ Ht); [vm_compute; reflexivity|].
      repeat constructor; discriminate.
    + refine (strptime_naive _ _ _ _ _ _ _ Ht); [vm_compute; reflexivity|].
      repeat constructor; discriminate.
    + refine (strptime_aware _ _ _
                [Datetime.Dir Datetime.D_Y; Datetime.Lit "-"; Datetime.Dir Datetime.D_m;
                 Datetime.Lit "-"; Datetime.Dir Datetime.D_d; Datetime.Lit "T";
                 Datetime.Dir Datetime.D_H; Datetime.Lit ":"; Datetime.Dir Datetime.D_M;
                 Datetime.Lit ":"; Datetime.Dir Datetime.D_S] _ _ Ht).
      vm_compute. reflexivity.
Qed.

Lemma parse_date_by_format_witness :
  Datetime.aware (Datetime.mk 2024 5 1 10 0 0 (Some 3600000000)) = true.
Proof.
  destruct (parse_date_by_format demo "2024-05-01T10:00:00+01:00")
    as (_ & _ & _ & _ & _ & H).
  apply H. vm_compute. reflexivity.
Defined.

(* ================================================================== *)
(** ** More on [summarise] *)

Section SummaryShape.

Lemma join_append_last (ws : list string) (e : string) :
  Str.join " " (append_last ws e) = Str.join " " ws ++ e.
Proof.
  induction ws as [|w ws IH]; [reflexivity|].
  destruct ws as [|v ws]; [reflexivity|].
  change (append_last (w :: v :: ws) e) with (w :: append_last (v :: ws) e).
  assert (Hne : exists x xs, append_last (v :: ws) e = x :: xs).
  { destruct ws; cbn; eauto. }
  destruct Hne as (x & xs & Hx). rewrite Hx in *.
  change (Str.join " " (w :: x :: xs)) with (w ++ " " ++ Str.join " " (x :: xs)).
  rewrite IH.
  change (Str.join " " (w :: v :: ws)) with (w ++ " " ++ Str.join " " (v :: ws)).
  now rewrite !append_assoc.
Qed.

Lemma length_append_last (ws : list string) (e : string) :
  List.length (append_last ws e) = Nat.max 1 (List.length ws).
Proof.
  induction ws as [|w ws IH]; [reflexivity|].
  destruct ws as [|v ws]; [reflexivity|].
  change (append_last (w :: v :: ws) e) with (w :: append_last (v :: ws) e).
  cbn [List.length] in *. rewrite IH. lia.
Qed.

Lemma Forall_append_last (P : string -> Prop) (ws : list string) (e : string) :
  P e -> (forall w, P w -> P (w ++ e)) -> Forall P ws -> Forall P (append_last ws e).
Proof.
  intros He Happ. induction 1 as [|w ws Hw Hws IH]; [now constructor|].
  destruct ws as [|v ws]; [constructor; auto|].
  change (append_last (w :: v :: ws) e) with (w :: append_last (v :: ws) e).
  now constructor.
Qed.

Lemma Forall_prefix {X : Type} (P : X -> Prop) (l : list X) (k : nat) :
  Forall P l -> Forall P (firstn k l).
Proof.
  intros H. revert k. induction H as [|x l Hx Hl IH]; intros [|k]; cbn; auto.
Qed.

Lemma Forall_slice_to {X : Type} (P : X -> Prop) (l : list X) (n : Z) :
  Forall P l -> Forall P (Str.slice_to l n).
Proof.
  intros H. unfold Str.slice_to. destruct (n <? 0); now apply Forall_prefix.
Qed.

Lemma join_chars (ws : list string) :
  Forall Str.is_word ws ->
  Str.all (fun c => Str.nonspace c || Ascii.eqb c " ") (Str.join " " ws) = true.
Proof.
  assert (Hw : forall w, Str.all Str.nonspace w = true ->
             Str.all (fun c => Str.nonspace c || Ascii.eqb c " ") w = true).
  { induction w as [|c w IH]; [reflexivity|]. cbn [Str.all]. intros H.
    apply andb_true_iff in H as [Hc H]. now rewrite Hc, IH. }
  induction 1 as [|w ws [_ Hword] Hws IH]; [reflexivity|].
  destruct ws as [|v ws]; [now apply Hw|].
  change (Str.join " " (w :: v :: ws)) with (w ++ " " ++ Str.join " " (v :: ws)).
  now rewrite !all_app, Hw, IH.
Qed.

Lemma summarise_words (h : Host) (text : string) (n : Z) :
  summarise h text n = Str.join " " (summary_words (text_words h text) n).
Proof.
  unfold summarise, summary_words. fold (text_words h text).
  destruct (Z.of_nat (List.length (text_words h text)) >? n); [|reflexivity].
  now rewrite join_append_last.
Qed.

Lemma word_with_dots (w : string) : Str.is_word w -> Str.is_word (w ++ "...").
Proof.
  intros [Hne Hw]. split; [destruct w; [congruence | discriminate]|].
  now rewrite all_app, Hw.
Qed.

Lemma summary_words_are_words (words : list string) (n : Z) :
  Forall Str.is_word words -> Forall Str.is_word (summary_words words n).
Proof.
  intros H. unfold summary_words.
  destruct (Z.of_nat (List.length words) >? n); [|now apply Forall_slice_to].
  apply Forall_append_last; [split; [discriminate | reflexivity] | exact word_with_dots|].
  now apply Forall_slice_to.
Qed.

End SummaryShape.

(** Whatever the limit, the summary is whitespace-normalised: it is its
    own words joined by single spaces (so it neither starts nor ends
    with whitespace and has no two spaces in a row), and the space is
    the only whitespace character in it. *)
Theorem summarise_normalised (h : Host) (text : string) (max_words : Z) :
  Str.join " " (Str.split (summarise h text max_words)) = summarise h text max_words /\
  Str.all (fun c => Str.nonspace c || Ascii.eqb c " ") (summarise h text max_words) = true.
Proof.
  rewrite summarise_words.
  pose proof (summary_words_are_words _ max_words (split_words
    (Html.unescape (replace_charref h) (Re.sub_tags text)))) as Hw.
  fold (text_words h text) in Hw.
  split; [now rewrite split_join | now apply join_chars].
Qed.

Lemma slice_to_nat {X : Type} (l : list X) (k : nat) :
  Str.slice_to l (Z.of_nat k) = firstn k l.
Proof.
  unfold Str.slice_to.
  destruct (Z.of_nat k <? 0) eqn:E; [apply Z.ltb_lt in E; lia|].
  now rewrite Nat2Z.id.
Qed.

Lemma summary_words_nat (words : list string) (k : nat) :
  summary_words words (Z.of_nat k)
  = if (k <? List.length words)%nat then append_last (firstn k words) "..."
    else firstn k words.
Proof.
  unfold summary_words. rewrite slice_to_nat.
  destruct (Z.of_nat (List.length words) >? Z.of_nat k) eqn:E;
    destruct (k <? List.length words)%nat eqn:F; try reflexivity.
  - apply Z.gtb_lt in E. apply Nat.ltb_ge in F. lia.
  - apply Nat.ltb_lt in F. rewrite Z.gtb_ltb in E. apply Z.ltb_ge in E. lia.
Qed.

(** For a limit of at least one word, the summary has as many words as
    the text or as the limit, whichever is less (the dots hang on the
    last word and add none); a text within the limit keeps its words. *)
Theorem summarise_word_count (h : Host) (text : string) (n : nat) :
  (1 <= n)%nat ->
  List.length (Str.split (summarise h text (Z.of_nat n)))
  = Nat.min n (List.length (text_words h text)) /\
  ((List.length (text_words h text) <= n)%nat ->
   Str.split (summarise h text (Z.of_nat n)) = text_words h text).
Proof.
  intros Hn. rewrite summarise_words.
  assert (Hw : Forall Str.is_word (text_words h text)) by apply split_words.
  rewrite split_join by now apply summary_words_are_words.
  rewrite summary_words_nat.
  destruct (n <? List.length (text_words h text))%nat eqn:E.
  - apply Nat.ltb_lt in E. split; [|lia].
    rewrite length_append_last, length_firstn. lia.
  - apply Nat.ltb_ge in E. split; [rewrite length_firstn; lia|].
    intros _. now apply firstn_all2.
Qed.

Lemma summarise_word_count_witness :
  List.length (Str.split (summarise demo "one two three four five" 3)) = 3%nat.
Proof.
  apply (summarise_word_count demo "one two three four five" 3). lia.
Defined.

(** With no room for a word the dots still come: the limit 0 turns
    every text that has a word into ["..."], and a negative limit, which
    cuts words off the end, appends the dots to whatever is left, even
    to nothing. *)
Theorem summarise_without_room (h : Host) (text : string) :
  (text_words h text <> [] -> summarise h text 0 = "...") /\
  (text_words h text = [] -> summarise h text 0 = "") /\
  (forall n, n < 0 ->
     summarise h text n
     = Str.join " " (firstn (Z.to_nat (Z.of_nat (List.length (text_words h text)) + n))
                            (text_words h text)) ++ "...").
Proof.
  unfold summarise. fold (text_words h text). repeat split.
  - intros Hne. destruct (text_words h text) as [|w ws]; [congruence|]. reflexivity.
  - now intros ->.
  - intros n Hn. unfold Str.slice_to.
    destruct (n <? 0) eqn:E; [|apply Z.ltb_ge in E; lia].
    destruct (Z.of_nat (List.length (text_words h text)) >? n) eqn:F; [reflexivity|].
    rewrite Z.gtb_ltb in F. apply Z.ltb_ge in F. lia.
Qed.

Lemma summarise_without_room_witness :
  summarise demo "<p>Shares rose</p>" 0 = "..." /\
  summarise demo "" (-1) = "...".
Proof.
  destruct (summarise_without_room demo "<p>Shares rose</p>") as (H0 & _ & _).
  destruct (summarise_without_room demo "") as (_ & _ & Hneg).
  split; [apply H0; discriminate | apply (Hneg (-1)); lia].
Defined.

Lemma summary_words_idem (words : list string) (n : Z) :
  0 <= n -> summary_words (summary_words words n) n = summary_words words n.
Proof.
  intros Hn. rewrite <- (Z2Nat.id n Hn). set (k := Z.to_nat n).
  rewrite (summary_words_nat words k).
  destruct (k <? List.length words)%nat eqn:E.
  - apply Nat.ltb_lt in E. rewrite summary_words_nat, length_append_last, length_firstn.
    destruct k as [|k].
    + reflexivity.
    + replace (S k <? Nat.max 1 (Nat.min (S k) (List.length words)))%nat with false
        by (symmetry; apply Nat.ltb_ge; lia).
      apply firstn_all2. rewrite length_append_last, length_firstn. lia.
  - apply Nat.ltb_ge in E. rewrite summary_words_nat, length_firstn.
    replace (k <? Nat.min k (List.length words))%nat with false
      by (symmetry; apply Nat.ltb_ge; lia).
    apply firstn_all2. rewrite length_firstn. lia.
Qed.

Lemma plain_dots (w : string) : plain w = true -> plain (w ++ "...") = true.
Proof. intros H. unfold plain in *. now rewrite all_app, H. Qed.

(** Summarising a summary changes nothing when the words of the text
    hold neither [<] nor [&] and the limit is not negative. *)
Theorem summarise_idempotent (h : Host) (text : string) (n : Z) :
  0 <= n ->
  Forall (fun w => plain w = true) (text_words h text) ->
  summarise h (summarise h text n) n = summarise h text n.
Proof.
  intros Hn Hplain.
  set (sw := summary_words (text_words h text) n).
  assert (Hsw : summarise h text n = Str.join " " sw) by apply summarise_words.
  assert (Hwords : Forall Str.is_word sw).
  { apply summary_words_are_words, split_words. }
  assert (Hp : Forall (fun w => plain w = true) sw).
  { unfold sw, summary_words.
    destruct (Z.of_nat (List.length (text_words h text)) >? n);
      [|now apply Forall_slice_to].
    apply Forall_append_last; [reflexivity | exact plain_dots|].
    now apply Forall_slice_to. }
  assert (Hlt : Str.mem "<" (Str.join " " sw) = false).
  { apply mem_join; [reflexivity|]. eapply Forall_impl; [|exact Hp].
    intros w Hw. now apply plain_inv in Hw. }
  assert (Hamp : Str.mem "&" (Str.join " " sw) = false).
  { apply mem_join; [reflexivity|]. eapply Forall_impl; [|exact Hp].
    intros w Hw. now apply plain_inv in Hw. }
  assert (Htw : text_words h (Str.join " " sw) = sw).
  { unfold text_words. rewrite (sub_tags_no_lt _ Hlt).
    unfold Html.unescape. rewrite Hamp. cbn [negb]. now apply split_join. }
  rewrite Hsw, summarise_words, Htw. unfold sw. now rewrite summary_words_idem.
Qed.

Lemma summarise_idempotent_witness :
  summarise demo (summarise demo "<p>Shares   rose again</p>" 2) 2
  = summarise demo "<p>Shares   rose again</p>" 2.
Proof.
  apply (summarise_idempotent demo "<p>Shares   rose again</p>" 2); [lia|].
  vm_compute. repeat constructor.
Defined.

(** *** The tag pattern *)

Lemma sub_tags_keep (a r : string) :
  Str.mem "<" a = false ->
  Re.sub_tags_from false (a ++ r) = a ++ Re.sub_tags_from false r.
Proof.
  induction a as [|c a IH]; [reflexivity|]. cbn [Str.mem]. intros H.
  apply orb_false_iff in H as [Hc Ha].
  cbn [append Re.sub_tags_from]. unfold Re.is_lt.
  rewrite Ascii.eqb_sym, Hc. cbn [andb]. now rewrite IH.
Qed.

Lemma sub_tags_skip (body b : string) :
  Str.mem ">" body = false ->
  Re.sub_tags_from true (body ++ ">" ++ b) = Re.sub_tags_from false b.
Proof.
  induction body as [|c body IH]; [reflexivity|]. cbn [Str.mem]. intros H.
  apply orb_false_iff in H as [Hc Hb].
  cbn [append Re.sub_tags_from]. unfold Re.is_gt.
  rewrite Ascii.eqb_sym, Hc. cbn [negb]. now apply IH.
Qed.

Lemma sub_tags_no_gt (s : string) : Str.mem ">" s = false -> Re.sub_tags s = s.
Proof.
  unfold Re.sub_tags. induction s as [|c s IH]; [reflexivity|].
  cbn [Str.mem Re.sub_tags_from]. intros H. apply orb_false_iff in H as [Hc Hs].
  assert (Hopen : Re.opens_tag s = false).
  { destruct s as [|d s]; [reflexivity|]. cbn [Re.opens_tag].
    cbn [Str.mem] in Hs. apply orb_false_iff in Hs as [_ Hs].
    rewrite Hs. apply andb_false_r. }
  rewrite Hopen, andb_false_r. now rewrite IH.
Qed.

(** What the tag pattern removes and what it leaves.  A [<] followed by
    at least one character and a later [>] is removed up to the first
    such [>], whatever stands between them (line breaks and further
    [<] included); a text without [>] is left as it is, however many
    [<] it holds; and the empty pair [<>] is left in place. *)
Theorem sub_tags_removes_and_keeps :
  (forall a body b,
     Str.mem "<" a = false -> body <> "" -> Str.mem ">" body = false ->
     Re.sub_tags (a ++ "<" ++ body ++ ">" ++ b) = a ++ Re.sub_tags b) /\
  (forall s, Str.mem ">" s = false -> Re.sub_tags s = s) /\
  (forall s, Re.sub_tags ("<>" ++ s) = "<>" ++ Re.sub_tags s).
Proof.
  split; [|split].
  - intros a body b Ha Hne Hbody. unfold Re.sub_tags.
    rewrite sub_tags_keep by exact Ha. f_equal.
    destruct body as [|d body]; [congruence|].
    cbn [Str.mem] in Hbody. apply orb_false_iff in Hbody as [Hd Hbody].
    change ("<" ++ String d body ++ ">" ++ b)
      with (String "<" (String d (body ++ ">" ++ b))).
    cbn [Re.sub_tags_from Re.opens_tag].
    assert (Hgt : Re.is_gt d = false) by (unfold Re.is_gt; now rewrite Ascii.eqb_sym).
    rewrite Hgt, mem_app. cbn [negb andb].
    replace (Re.is_lt "<" && (Str.mem ">" body || Str.mem ">" (">" ++ b))) with true
      by (rewrite Hbody; reflexivity).
    now apply sub_tags_skip.
  - exact sub_tags_no_gt.
  - intros s. reflexivity.
Qed.

Lemma sub_tags_removes_and_keeps_witness :
  Re.sub_tags ("Shares " ++ "<" ++ "a href='x'" ++ ">" ++ "rose") = "Shares rose" /\
  Re.sub_tags "1 < 2 and 2 < 3" = "1 < 2 and 2 < 3".
Proof.
  destruct sub_tags_removes_and_keeps as (Hcut & Hkeep & _). split.
  - rewrite (Hcut "Shares " "a href='x'" "rose"); [reflexivity.. | discriminate | reflexivity].
  - apply Hkeep. reflexivity.
Defined.

(* ================================================================== *)
(** ** More on [parse_feed] and [build_articles] *)

Section BlankFields.

Lemma lstrip_blank (s : string) : blank s = true -> Str.lstrip s = "".
Proof.
  unfold blank. induction s as [|c s IH]; [reflexivity|]. cbn [Str.all Str.lstrip].
  intros H. apply andb_true_iff in H as [Hc Hs]. rewrite Hc. now apply IH.
Qed.

Lemma lstrip_not_blank (s : string) :
  blank s = false -> exists c t, Str.lstrip s = String c t /\ Str.isspace c = false.
Proof.
  unfold blank. induction s as [|c s IH]; [discriminate|]. cbn [Str.all Str.lstrip].
  destruct (Str.isspace c) eqn:Ec; [exact IH | eauto].
Qed.

(** A field is empty once trimmed exactly when it is blank. *)
Lemma truthy_strip (s : string) : Str.truthy (Str.strip s) = negb (blank s).
Proof.
  unfold Str.strip. destruct (blank s) eqn:E.
  - now rewrite lstrip_blank.
  - destruct (lstrip_not_blank s E) as (c & t & -> & Hc).
    destruct (rstrip_head c t Hc) as [r ->]. reflexivity.
Qed.

End BlankFields.

(** An item passes the filter of [build_articles] exactly when its title
    text has a character that is not whitespace, and so has its link
    text or, failing that, the [href] of its first [link] element: a
    title or a link of whitespace only counts as missing, and the item
    gives no article. *)
Theorem item_qualifies_iff (h : Host) (item : ET.Element) :
  let has_text s := negb (blank s) in
  qualifies (parse_item item)
  = has_text (ET.findtext "title" "" item)
    && (has_text (ET.findtext "link" "" item)
        || match ET.find "link" item with
           | Some link_elem => has_text (ET.get "href" "" link_elem)
           | None => false
           end) /\
  collect_items h [parse_item item]
  = (if qualifies (parse_item item) then [article_of h (parse_item item)] else []).
Proof.
  intros has_text. subst has_text. cbv beta. split.
  - unfold qualifies, parse_item. cbn [Raw.title Raw.link].
    rewrite truthy_strip. f_equal.
    destruct (Str.truthy (Str.strip (ET.findtext "link" "" item))) eqn:E;
      rewrite truthy_strip in E; cbn [negb].
    + now rewrite truthy_strip, E.
    + rewrite E. cbn [orb].
      destruct (ET.find "link" item) as [e|]; [apply truthy_strip|].
      rewrite truthy_strip. exact E.
  - cbn [collect_items]. unfold qualifies.
    now destruct (Str.truthy (Raw.title (parse_item item))),
                 (Str.truthy (Raw.link (parse_item item))).
Qed.

Lemma collect_all_fail (h : Host) (feed_urls : list string) :
  (forall url, In url feed_urls -> feed_fails h url) -> collect h feed_urls = [].
Proof.
  intros Hfail. unfold collect. induction feed_urls as [|u us IH]; [reflexivity|].
  cbn [flat_map]. rewrite IH by (intros v Hv; apply Hfail; now right).
  assert (Hu : parse_feed h (fetch_rss h u) = []).
  { destruct (Hfail u (or_introl eq_refl)) as [H|[H|H]].
    - unfold fetch_rss. now rewrite H.
    - now rewrite H.
    - unfold parse_feed. rewrite H. now destruct (Str.truthy (fetch_rss h u)). }
  now rewrite Hu.
Qed.

(** When every feed fails, [build_articles] returns the empty list. *)
Theorem build_articles_all_feeds_fail (h : Host) (feed_urls : list string) :
  (forall url, In url feed_urls -> feed_fails h url) ->
  collect h feed_urls = [] /\ build_articles h feed_urls = Ok [].
Proof.
  intros Hfail. pose proof (collect_all_fail h feed_urls Hfail) as Hc.
  split; [exact Hc|]. unfold build_articles. now rewrite Hc.
Qed.

Lemma build_articles_all_feeds_fail_witness :
  build_articles demo [down_url; broken_url; down_url] = Ok [].
Proof.
  apply (build_articles_all_feeds_fail demo [down_url; broken_url; down_url]).
  intros url [<-|[<-|[<-|[]]]]; [left | right; right | left]; reflexivity.
Defined.

Lemma build_articles_class (h : Host) (feed_urls : list string) :
  (exists out, build_articles h feed_urls = Ok out) <->
  (forall a b, In a (collect h feed_urls) -> In b (collect h feed_urls) ->
               Datetime.aware (sort_key h a) = Datetime.aware (sort_key h b)).
Proof.
  exact (list_sort_returns_iff Datetime.lt (sort_key h) Datetime.aware
           Datetime.instant datetime_lt_spec true (collect h feed_urls)).
Qed.

(** Nothing is deduplicated: when [build_articles] returns on some
    feeds, it returns on the list that names each of them twice, with
    every article twice. *)
Theorem build_articles_keeps_duplicates (h : Host) (feed_urls : list string)
    (once : list Article.t) :
  build_articles h feed_urls = Ok once ->
  exists twice,
    build_articles h (feed_urls ++ feed_urls) = Ok twice /\
    Permutation twice (once ++ once) /\
    List.length twice = (2 * List.length once)%nat.
Proof.
  intros H.
  assert (Hcls : exists out, build_articles h (feed_urls ++ feed_urls) = Ok out).
  { apply build_articles_class. rewrite collect_app.
    intros a b Ha Hb. apply in_app_or in Ha, Hb.
    apply (proj1 (build_articles_class h feed_urls) (ex_intro _ once H));
      tauto. }
  destruct Hcls as [twice Htwice]. exists twice. split; [exact Htwice|].
  unfold build_articles in H, Htwice.
  apply list_sort_perm in H, Htwice. rewrite collect_app in Htwice.
  assert (Hp : Permutation twice (once ++ once)).
  { rewrite <- Htwice. now apply Permutation_app. }
  split; [exact Hp|]. rewrite (Permutation_length Hp), length_app. lia.
Qed.

Lemma build_articles_keeps_duplicates_witness :
  exists twice,
    build_articles demo ([rss_url] ++ [rss_url]) = Ok twice /\
    Permutation twice ([rates_held] ++ [rates_held]) /\
    List.length twice = (2 * List.length [rates_held])%nat.
Proof.
  apply (build_articles_keeps_duplicates demo [rss_url] [rates_held]).
  vm_compute. reflexivity.
Defined.

Section SortedUnique.
Context {X : Type}.
Variable rank : X -> Z.

Lemma rank_inj_in (l : list X) (x y : X) :
  NoDup (map rank l) -> In x l -> In y l -> rank x = rank y -> x = y.
Proof.
  induction l as [|a l IH]; cbn [map]; intros Hnd Hx Hy Hr; [destruct Hx|].
  apply NoDup_cons_iff in Hnd as [Ha Hnd].
  destruct Hx as [<-|Hx], Hy as [<-|Hy]; auto.
  - exfalso. apply Ha. rewrite Hr. now apply in_map.
  - exfalso. apply Ha. rewrite <- Hr. now apply in_map.
Qed.

(** Two arrangements of the same elements, both from the greatest rank
    down, are one when no two elements share a rank. *)
Lemma sorted_unique (l l' : list X) :
  StronglySorted (fun a b => rank b <= rank a) l ->
  StronglySorted (fun a b => rank b <= rank a) l' ->
  Permutation l l' -> NoDup (map rank l) -> l = l'.
Proof.
  revert l'. induction l as [|x t IH]; intros l' Hs Hs' Hp Hnd.
  - apply Permutation_nil in Hp. now subst.
  - destruct l' as [|y t'];
      [apply Permutation_sym, Permutation_nil in Hp; discriminate|].
    apply StronglySorted_inv in Hs as [Hs Hx], Hs' as [Hs' Hy].
    rewrite Forall_forall in Hx, Hy.
    assert (Hxy : x = y).
    { assert (Hin : In x (y :: t')) by (apply (Permutation_in _ Hp); now left).
      assert (Hin' : In y (x :: t))
        by (apply (Permutation_in _ (Permutation_sym Hp)); now left).
      destruct Hin as [<-|Hin]; [reflexivity|].
      destruct Hin' as [->|Hin']; [reflexivity|].
      apply (rank_inj_in (x :: t)); [exact Hnd | now left | now right|].
      specialize (Hx y Hin'). specialize (Hy x Hin). lia. }
    subst y. f_equal. apply IH; try assumption.
    + now apply Permutation_cons_inv in Hp.
    + cbn [map] in Hnd. now apply NoDup_cons_iff in Hnd.
Qed.

End SortedUnique.

(** The order of the feeds does not show in the result when no two
    collected articles have the same sort key: [build_articles] then
    returns the same list for every order of the same feeds.  Among
    equal keys it does show: two feeds that each hold an undated
    article give those two in the order of the feeds. *)
Theorem build_articles_feed_order :
  (forall (h : Host) (feed_urls feed_urls' : list string) (out : list Article.t),
     Permutation feed_urls feed_urls' ->
     NoDup (map (fun a => Datetime.instant (sort_key h a)) (collect h feed_urls)) ->
     build_articles h feed_urls = Ok out ->
     build_articles h feed_urls' = Ok out) /\
  build_articles demo [archive_url; nodate_url]
  = Ok [undated_item; late_edition; devaluation; bank_rate] /\
  build_articles demo [nodate_url; archive_url]
  = Ok [late_edition; undated_item; devaluation; bank_rate].
Proof.
  split; [|split; vm_compute; reflexivity].
  intros h feed_urls feed_urls' out Hperm Hnd H.
  assert (Hc : Permutation (collect h feed_urls) (collect h feed_urls')).
  { unfold collect. now apply Permutation_flat_map. }
  assert (Hret : exists out', build_articles h feed_urls' = Ok out').
  { apply build_articles_class. intros a b Ha Hb.
    apply (proj1 (build_articles_class h feed_urls) (ex_intro _ out H));
      now apply (Permutation_in _ (Permutation_sym Hc)). }
  destruct Hret as [out' H']. rewrite H'. f_equal. symmetry.
  pose proof (build_articles_sorted _ _ _ H) as Hs.
  pose proof (build_articles_sorted _ _ _ H') as Hs'.
  unfold build_articles in H, H'. apply list_sort_perm in H, H'.
  apply (sorted_unique (fun a => Datetime.instant (sort_key h a))); try assumption.
  - now rewrite <- H, Hc.
  - apply (Permutation_NoDup (Permutation_map _ H)). exact Hnd.
Qed.

Lemma build_articles_feed_order_witness :
  build_articles demo [archive_url; rss_url]
  = Ok [rates_held; undated_item; devaluation; bank_rate].
Proof.
  destruct build_articles_feed_order as [H _].
  apply (H demo [rss_url; archive_url] [archive_url; rss_url]).
  - apply perm_swap.
  - vm_compute. repeat constructor; cbn; intuition discriminate.
  - vm_compute. reflexivity.
Defined.

(* ================================================================== *)
(** ** [render_articles] and [main] *)

Section Occurrences.

Lemma occurs_here (x b : string) : occurs_in x (x ++ b).
Proof. now exists "", b. Qed.

Lemma occurs_app_r (a x s : string) : occurs_in x s -> occurs_in x (a ++ s).
Proof.
  intros (pre & post & ->). exists (a ++ pre), post. now rewrite append_assoc.
Qed.

Lemma occurs_trans (x y s : string) : occurs_in x y -> occurs_in y s -> occurs_in x s.
Proof.
  intros (p1 & q1 & ->) (p2 & q2 & ->). exists (p2 ++ p1), (q1 ++ q2).
  now rewrite !append_assoc.
Qed.

Lemma occurs_join (sep p : string) (parts : list string) :
  In p parts -> occurs_in p (Str.join sep parts).
Proof.
  induction parts as [|q parts IH]; [intros []|].
  destruct parts as [|r parts].
  - intros [<-|[]]. exists "", "". cbn. now rewrite append_empty_r.
  - change (Str.join sep (q :: r :: parts)) with (q ++ sep ++ Str.join sep (r :: parts)).
    intros [<-|Hin]; [apply occurs_here|].
    apply occurs_app_r, occurs_app_r. now apply IH.
Qed.

End Occurrences.

Ltac find_occurrence :=
  rewrite ?append_assoc;
  repeat first [ apply occurs_here | apply occurs_app_r ].

Lemma item_html_fields (link title pub summary : string) :
  occurs_in link (item_html link title pub summary) /\
  occurs_in title (item_html link title pub summary) /\
  occurs_in pub (item_html link title pub summary) /\
  occurs_in summary (item_html link title pub summary).
Proof. unfold item_html, attr. repeat split; find_occurrence. Qed.

Lemma render_parts (articles : list Article.t) (parts : list string) :
  fold_left (fun parts article => (parts ++ [render_item article])%list) articles parts
  = (parts ++ map render_item articles)%list.
Proof.
  revert parts. induction articles as [|a l IH]; intros parts; cbn [fold_left map].
  - now rewrite app_nil_r.
  - now rewrite IH, <- app_assoc.
Qed.

Lemma render_articles_nonempty (a : Article.t) (l : list Article.t) :
  render_articles (a :: l)
  = Str.join nl (LIST_OPEN :: map render_item (a :: l) ++ ["</ul>"]).
Proof. unfold render_articles. now rewrite render_parts. Qed.

Lemma render_articles_holds (articles : list Article.t) (a : Article.t) :
  In a articles -> occurs_in (render_item a) (render_articles articles).
Proof.
  intros Hin. destruct articles as [|b l]; [destruct Hin|].
  rewrite render_articles_nonempty. apply occurs_join. right.
  apply in_or_app. left. now apply in_map.
Qed.

Lemma join_snoc (sep e : string) (items : list string) :
  items <> [] -> Str.join sep (items ++ [e]) = Str.join sep items ++ sep ++ e.
Proof.
  induction items as [|x items IH]; [congruence|]. intros _.
  destruct items as [|y items]; [reflexivity|].
  change (Str.join sep ((x :: y :: items) ++ [e])%list)
    with (x ++ sep ++ Str.join sep ((y :: items) ++ [e])%list).
  rewrite IH by discriminate.
  change (Str.join sep (x :: y :: items)) with (x ++ sep ++ Str.join sep (y :: items)).
  now rewrite !append_assoc.
Qed.

(** The notice stands for the empty list and for it alone; any other
    list gives the opening of the list, one block per article in the
    order of the list, and the closing, each on a line of its own. *)
Theorem render_articles_list (articles : list Article.t) :
  (render_articles articles = NO_ARTICLES <-> articles = []) /\
  (articles <> [] ->
   render_articles articles
   = LIST_OPEN ++ nl ++ Str.join nl (map render_item articles) ++ nl ++ "</ul>").
Proof.
  destruct articles as [|a l].
  - split; [tauto | congruence].
  - split.
    + split; [|discriminate]. rewrite render_articles_nonempty.
      cbn [map app].
      change (Str.join nl (LIST_OPEN :: render_item a :: (map render_item l ++ ["</ul>"])%list))
        with (LIST_OPEN ++ nl ++ Str.join nl
                (render_item a :: (map render_item l ++ ["</ul>"])%list)).
      cbn. discriminate.
    + intros _. rewrite render_articles_nonempty.
      change (Str.join nl (LIST_OPEN :: (map render_item (a :: l) ++ ["</ul>"])%list))
        with (LIST_OPEN ++ nl ++ Str.join nl (map render_item (a :: l) ++ ["</ul>"])%list).
      do 2 f_equal. apply join_snoc. discriminate.
Qed.

Lemma render_articles_list_witness :
  render_articles [late_edition]
  = LIST_OPEN ++ nl ++ Str.join nl (map render_item [late_edition]) ++ nl ++ "</ul>".
Proof.
  apply (render_articles_list [late_edition]). discriminate.
Defined.

(** Nothing is escaped: the title, the link and the summary of every
    article stand in the rendered list exactly as they are, markup and
    quotes included. *)
Theorem render_articles_verbatim (articles : list Article.t) (a : Article.t) :
  In a articles ->
  occurs_in (Article.title a) (render_articles articles) /\
  occurs_in (Article.link a) (render_articles articles) /\
  occurs_in (Article.summary a) (render_articles articles).
Proof.
  intros Hin. pose proof (render_articles_holds articles a Hin) as Hitem.
  destruct (item_html_fields (Article.link a) (Article.title a)
              match Article.pub_date a with
              | Some t => strftime t
              | None => ""
              end (Article.summary a)) as (Hl & Ht & _ & Hs).
  repeat split; eapply occurs_trans; try exact Hitem; assumption.
Qed.

Lemma render_articles_verbatim_witness :
  occurs_in "<script>"
    (render_articles [Article.mk "Breaking" "http://example.org/b" "<script>" None]).
Proof.
  apply (render_articles_verbatim
           [Article.mk "Breaking" "http://example.org/b" "<script>" None]
           (Article.mk "Breaking" "http://example.org/b" "<script>" None)).
  now left.
Defined.

Lemma page_holds_section (section year : string) :
  occurs_in section (HTML_TEMPLATE section year).
Proof.
  unfold HTML_TEMPLATE. apply (occurs_trans _ ("        " ++ section)).
  - apply occurs_app_r. exists "", "". cbn. now rewrite append_empty_r.
  - apply occurs_join. cbn [In]. tauto.
Qed.

Lemma main_inv (h : Host) (year : Z) (page : string) :
  main h year = Ok page ->
  exists out, build_articles h FEED_URLS = Ok out /\
              Permutation (collect h FEED_URLS) out /\
              page = HTML_TEMPLATE (render_articles out) (str_of_int year).
Proof.
  unfold main. intros H. apply map_ok_inv in H as (out & Hout & ->).
  exists out. repeat split; [exact Hout|].
  unfold build_articles in Hout. now apply list_sort_perm in Hout.
Qed.

(** When both feeds fail, [main] still writes a page: the template
    with the notice that no article is available in place of the
    list. *)
Theorem main_all_feeds_fail (h : Host) (year : Z) :
  (forall url, In url FEED_URLS -> feed_fails h url) ->
  main h year = Ok (HTML_TEMPLATE NO_ARTICLES (str_of_int year)).
Proof.
  intros Hfail. unfold main, build_articles.
  now rewrite (collect_all_fail h FEED_URLS Hfail).
Qed.

Lemma main_all_feeds_fail_witness :
  main demo 2024 = Ok (HTML_TEMPLATE NO_ARTICLES "2024").
Proof.
  apply (main_all_feeds_fail demo 2024).
  intros url [<-|[<-|[]]]; left; reflexivity.
Defined.

(** The page [main] writes holds the title, the link and the summary of
    every collected article exactly as they are. *)
Theorem main_page_verbatim (h : Host) (year : Z) (page : string) (a : Article.t) :
  main h year = Ok page -> In a (collect h FEED_URLS) ->
  occurs_in (Article.title a) page /\
  occurs_in (Article.link a) page /\
  occurs_in (Article.summary a) page.
Proof.
  intros H Ha. apply main_inv in H as (out & _ & Hperm & ->).
  apply (Permutation_in _ Hperm) in Ha.
  pose proof (render_articles_holds out a Ha) as Hitem.
  pose proof (page_holds_section (render_articles out) (str_of_int year)) as Hpage.
  destruct (item_html_fields (Article.link a) (Article.title a)
              match Article.pub_date a with
              | Some t => strftime t
              | None => ""
              end (Article.summary a)) as (Hl & Ht & _ & Hs).
  repeat split;
    (eapply occurs_trans; [|exact Hpage]);
    (eapply occurs_trans; [|exact Hitem]); assumption.
Qed.

Lemma main_page_verbatim_witness :
  exists page, main hostile 2024 = Ok page /\ occurs_in "http://example.org/b" page.
Proof.
  eexists. split; [vm_compute; reflexivity|].
  apply (main_page_verbatim hostile 2024 _
           (Article.mk "Breaking" "http://example.org/b" "<script>" None)).
  - vm_compute. reflexivity.
  - vm_compute. now left.
Defined.

Lemma summarise_encoded_tag (h : Host) (t : string) :
  replace_charref h "lt;" = "<" -> replace_charref h "gt;" = ">" ->
  plain t = true ->
  summarise h ("&lt;" ++ t ++ "&gt;") 50 = "<" ++ t ++ ">".
Proof.
  intros Hlt Hgt Ht. destruct (plain_inv t Ht) as (Hsp & Hnlt & Hnamp).
  rewrite summarise_summary_of. unfold text_words.
  rewrite sub_tags_no_lt by (rewrite !mem_app, Hnlt; reflexivity).
  rewrite (decodes_all (replace_charref h) _ ("<" ++ t ++ ">")).
  - rewrite split_word; [cbn; now rewrite append_empty_r|].
    split; [discriminate|]. rewrite !all_app, Hsp. reflexivity.
  - apply decodes_app; [now apply decodes_lt|].
    apply decodes_app; [now apply decodes_plain | now apply decodes_gt].
Qed.

(** Markup that a feed writes with entities reaches the page as markup:
    when the description of an item with a title and a link is a tag
    written as [&lt;t&gt;], the page [main] writes holds the literal tag
    [<t>]. *)
Theorem main_page_carries_encoded_markup (h : Host) (year : Z) (page : string)
    (item : Raw.t) (t : string) :
  replace_charref h "lt;" = "<" -> replace_charref h "gt;" = ">" ->
  main h year = Ok page ->
  In item (raw_items h FEED_URLS) -> qualifies item = true ->
  Raw.description item = "&lt;" ++ t ++ "&gt;" -> plain t = true ->
  occurs_in ("<" ++ t ++ ">") page.
Proof.
  intros Hlt Hgt H Hitem Hq Hdesc Ht.
  apply main_inv in H as (out & _ & Hperm & ->).
  assert (Ha : In (article_of h item) out).
  { apply (Permutation_in _ Hperm). rewrite collect_filter.
    apply in_map, filter_In. now split. }
  assert (Hsum : Article.summary (article_of h item) = "<" ++ t ++ ">").
  { unfold article_of. cbn [Article.summary]. rewrite Hdesc.
    cbn [append Str.truthy]. now apply (summarise_encoded_tag h t). }
  rewrite <- Hsum.
  eapply occurs_trans; [|apply page_holds_section].
  eapply occurs_trans; [|exact (render_articles_holds out _ Ha)].
  exact (proj2 (proj2 (proj2 (item_html_fields _ _ _ _)))).
Qed.

Lemma main_page_carries_encoded_markup_witness :
  exists page, main hostile 2024 = Ok page /\ occurs_in "<script>" page.
Proof.
  eexists. split; [vm_compute; reflexivity|].
  apply (main_page_carries_encoded_markup hostile 2024 _
           (Raw.mk "Breaking" "http://example.org/b" "&lt;script&gt;" "") "script").
  - reflexivity.
  - reflexivity.
  - vm_compute. reflexivity.
  - vm_compute. now left.
  - reflexivity.
  - reflexivity.
  - reflexivity.
Defined.

(* ================================================================== *)
(** ** Markup written with entities *)

Section ReferencesAtAmpersand.

Lemma occurs_app_l (x s b : string) : occurs_in x s -> occurs_in x (s ++ b).
Proof.
  intros (pre & post & ->). exists pre, (post ++ b). now rewrite !append_assoc.
Qed.

Lemma span_inv (p : ascii -> bool) (s x y : string) :
  Str.span p s = (x, y) -> s = x ++ y.
Proof.
  revert x y. induction s as [|c s IH]; intros x y; cbn [Str.span].
  - now intros [= <- <-].
  - destruct (p c); [|now intros [= <- <-]].
    destruct (Str.span p s) as [a b]. intros [= <- <-].
    cbn [append]. now rewrite (IH a b eq_refl).
Qed.

Lemma span_upto_inv (n : nat) (p : ascii -> bool) (s x y : string) :
  Str.span_upto n p s = (x, y) -> s = x ++ y.
Proof.
  revert s x y. induction n as [|n IH]; intros s x y; cbn [Str.span_upto].
  - now intros [= <- <-].
  - destruct s as [|c s]; [now intros [= <- <-]|].
    destruct (p c); [|now intros [= <- <-]].
    destruct (Str.span_upto n p s) as [a b] eqn:E. intros [= <- <-].
    cbn [append]. now rewrite (IH s a b E).
Qed.

(** A character that [p] refuses ends the prefix wherever it stands. *)
Lemma span_stop (p : ascii -> bool) (s : string) (c : ascii) (r : string) :
  p c = false ->
  Str.span p (s ++ String c r)
  = (fst (Str.span p s), snd (Str.span p s) ++ String c r).
Proof.
  intros Hc. induction s as [|d s IH]; cbn [append Str.span].
  - now rewrite Hc.
  - destruct (p d); [|reflexivity].
    rewrite IH. now destruct (Str.span p s).
Qed.

Lemma span_upto_stop (n : nat) (p : ascii -> bool) (s : string) (c : ascii)
    (r : string) :
  p c = false ->
  Str.span_upto n p (s ++ String c r)
  = (fst (Str.span_upto n p s), snd (Str.span_upto n p s) ++ String c r).
Proof.
  intros Hc. revert s. induction n as [|n IH]; intros s.
  - destruct s; reflexivity.
  - destruct s as [|d s]; cbn [append Str.span_upto].
    + now rewrite Hc.
    + destruct (p d); [|reflexivity].
      rewrite IH. now destruct (Str.span_upto n p s).
Qed.

Lemma opt_semicolon_amp (s r : string) :
  Html.opt_semicolon (s ++ String "&" r) = Html.opt_semicolon s.
Proof. destruct s; reflexivity. Qed.

(** No reference reaches over an ampersand: the group matched at the
    head of a text is the same whatever follows the next [&]. *)
Lemma charref_amp (x r : string) :
  Html.charref (x ++ String "&" r) = Html.charref x.
Proof.
  destruct x as [|c x]; [reflexivity|].
  cbn [append Html.charref].
  destruct (Ascii.eqb c "#") eqn:Ec.
  - rewrite (span_stop Str.isdigit x "&" r eq_refl).
    destruct (Str.span Str.isdigit x) as [ds after]. cbn [fst snd].
    rewrite opt_semicolon_amp.
    destruct (Str.truthy ds); [reflexivity|].
    destruct x as [|y x]; [reflexivity|]. cbn [append].
    destruct (Ascii.eqb (Str.lower y) "x"); [|reflexivity].
    rewrite (span_stop Html.is_hex x "&" r eq_refl).
    destruct (Str.span Html.is_hex x) as [hs after']. cbn [fst snd].
    now rewrite opt_semicolon_amp.
  - change (String c (x ++ String "&" r)) with (String c x ++ String "&" r).
    rewrite (span_upto_stop 32 Html.is_name_char (String c x) "&" r eq_refl).
    destruct (Str.span_upto 32 Html.is_name_char (String c x)) as [nm after].
    cbn [fst snd]. now rewrite opt_semicolon_amp.
Qed.

Lemma length_append (a b : string) :
  String.length (a ++ b) = (String.length a + String.length b)%nat.
Proof. induction a as [|c a IH]; cbn; [reflexivity | now rewrite IH]. Qed.

Lemma opt_semicolon_length (s : string) :
  exists rest, s = Html.opt_semicolon s ++ rest.
Proof.
  destruct s as [|c s]; [now exists ""|]. cbn [Html.opt_semicolon].
  destruct (Ascii.eqb c ";") eqn:E.
  - apply Ascii.eqb_eq in E. subst c. now exists s.
  - now exists (String c s).
Qed.

(** The group is read off the head of the text. *)
Lemma charref_length (x g : string) :
  Html.charref x = Some g -> (String.length g <= String.length x)%nat.
Proof.
  assert (Hsemi : forall a b, (String.length (a ++ Html.opt_semicolon b)
                               <= String.length (a ++ b))%nat).
  { intros a b. destruct (opt_semicolon_length b) as [rest Hrest].
    rewrite Hrest at 2. rewrite !length_append. lia. }
  destruct x as [|c x]; [discriminate|]. cbn [Html.charref].
  destruct (Ascii.eqb c "#").
  - destruct (Str.span Str.isdigit x) as [ds after] eqn:Ed.
    apply span_inv in Ed.
    destruct (Str.truthy ds).
    + intros [= <-]. subst x. cbn [String.length]. specialize (Hsemi ds after). lia.
    + destruct x as [|y x']; [discriminate|].
      destruct (Ascii.eqb (Str.lower y) "x"); [|discriminate].
      destruct (Str.span Html.is_hex x') as [hs after'] eqn:Eh.
      apply span_inv in Eh.
      destruct (Str.truthy hs); [|discriminate].
      intros [= <-]. subst x'. cbn [String.length]. specialize (Hsemi hs after'). lia.
  - destruct (Str.span_upto 32 Html.is_name_char (String c x)) as [nm after] eqn:En.
    apply span_upto_inv in En.
    destruct (Str.truthy nm); [|discriminate].
    intros [= <-]. rewrite En. apply Hsemi.
Qed.

Variable rc : string -> string.

(** Decoding goes through a text piece by piece at any [&]. *)
Lemma sub_charrefs_amp (a r : string) (skip : nat) :
  (skip <= String.length a)%nat ->
  Html.sub_charrefs rc skip (a ++ String "&" r)
  = Html.sub_charrefs rc skip a ++ Html.sub_charrefs rc 0 (String "&" r).
Proof.
  revert skip. induction a as [|c a IH]; intros skip Hk.
  - cbn [String.length] in Hk. assert (skip = 0%nat) as -> by lia. reflexivity.
  - cbn [append]. cbn [Html.sub_charrefs]. cbn [String.length] in Hk.
    destruct skip as [|k]; [|apply IH; lia].
    destruct (Ascii.eqb c "&").
    + rewrite charref_amp. destruct (Html.charref a) as [g|] eqn:Eg.
      * rewrite IH by now apply charref_length.
        now rewrite append_assoc.
      * cbn [append]. now rewrite IH by lia.
    + cbn [append]. now rewrite IH by lia.
Qed.

Lemma unescape_amp (a r : string) :
  Html.unescape rc (a ++ String "&" r)
  = Html.unescape rc a ++ Html.unescape rc (String "&" r).
Proof. rewrite !unescape_scan. apply sub_charrefs_amp. lia. Qed.

(** A tag written with entities decodes to the literal tag, between
    what the text before it and the text after it decode to. *)
Lemma unescape_encoded_tag (a t b : string) :
  rc "lt;" = "<" -> rc "gt;" = ">" ->
  Html.unescape rc (a ++ "&lt;" ++ t ++ "&gt;" ++ b)
  = Html.unescape rc a ++ "<" ++ Html.unescape rc t ++ ">" ++ Html.unescape rc b.
Proof.
  intros Hlt Hgt.
  change (a ++ "&lt;" ++ t ++ "&gt;" ++ b)
    with (a ++ String "&" ("lt;" ++ t ++ String "&" ("gt;" ++ b))).
  rewrite unescape_amp. f_equal.
  rewrite (unescape_scan rc (String "&" _)).
  change (Html.sub_charrefs rc 0 (String "&" ("lt;" ++ t ++ String "&" ("gt;" ++ b))))
    with (rc "lt;" ++ Html.sub_charrefs rc 0 (t ++ String "&" ("gt;" ++ b))).
  rewrite Hlt, <- unescape_scan, unescape_amp.
  rewrite (unescape_scan rc (String "&" _)).
  change (Html.sub_charrefs rc 0 (String "&" ("gt;" ++ b)))
    with (rc "gt;" ++ Html.sub_charrefs rc 0 b).
  now rewrite Hgt, <- unescape_scan.
Qed.

End ReferencesAtAmpersand.

Section WordsOfATag.

Lemma truthy_app_l (a b : string) : Str.truthy a = true -> Str.truthy (a ++ b) = true.
Proof. now destruct a. Qed.

Lemma truthy_app_r (a b : string) : Str.truthy b = true -> Str.truthy (a ++ b) = true.
Proof. destruct a; [trivial | reflexivity]. Qed.

(** A word being read is the start of the next word yielded. *)
Lemma words_from_head (s cur : string) :
  Str.truthy cur = true ->
  exists rest post, Str.words_from cur s = (cur ++ rest) :: post.
Proof.
  revert cur. induction s as [|c s IH]; intros cur Hcur; cbn [Str.words_from].
  - rewrite Hcur. exists "", []. now rewrite append_empty_r.
  - destruct (Str.isspace c).
    + rewrite Hcur. exists "", (Str.words_from "" s). now rewrite append_empty_r.
    + destruct (IH (cur ++ String c "") (truthy_app_l _ _ Hcur)) as (rest & post & ->).
      exists (String c rest), post. now rewrite append_assoc.
Qed.

(** The scan of a text that goes on: the words completed so far, and
    the word being read where the rest begins. *)
Lemma words_from_app (a cur : string) :
  exists done cur', forall s,
    Str.words_from cur (a ++ s) = (done ++ Str.words_from cur' s)%list.
Proof.
  revert cur. induction a as [|c a IH]; intros cur.
  - now exists [], cur.
  - cbn [append Str.words_from]. destruct (Str.isspace c).
    + destruct (IH "") as (done & cur' & H).
      destruct (Str.truthy cur).
      * exists (cur :: done), cur'. intros s. now rewrite H.
      * now exists done, cur'.
    + apply IH.
Qed.

Lemma words_from_join (w : string) (ws : list string) (cur : string) :
  Forall Str.is_word (w :: ws) ->
  Str.words_from cur (Str.join " " (w :: ws)) = (cur ++ w) :: ws.
Proof.
  intros Hws. inversion Hws as [|w' ws' [Hne Hw] Hrest]; subst.
  assert (Ht : Str.truthy (cur ++ w) = true).
  { apply truthy_app_r. now apply truthy_not_empty. }
  destruct ws as [|v ws].
  - cbn [Str.join String.concat]. rewrite <- (append_empty_r w) at 1.
    rewrite words_from_word by exact Hw. cbn [Str.words_from]. now rewrite Ht.
  - change (Str.join " " (w :: v :: ws)) with (w ++ String " " (Str.join " " (v :: ws))).
    rewrite words_from_word by exact Hw.
    change (Str.words_from (cur ++ w) (String " " (Str.join " " (v :: ws))))
      with (if Str.truthy (cur ++ w)
            then (cur ++ w) :: Str.split (Str.join " " (v :: ws))
            else Str.split (Str.join " " (v :: ws))).
    now rewrite Ht, split_join.
Qed.

Lemma join_cons (sep x : string) (l : list string) :
  l <> [] -> Str.join sep (x :: l) = x ++ sep ++ Str.join sep l.
Proof. destruct l; [congruence | reflexivity]. Qed.

Lemma join_head (sep x : string) (l : list string) :
  exists r, Str.join sep (x :: l) = x ++ r.
Proof.
  destruct l as [|y l]; [exists ""; cbn; now rewrite append_empty_r|].
  now exists (sep ++ Str.join sep (y :: l)).
Qed.

Lemma join_app_r (sep : string) (l1 l2 : list string) :
  l2 <> [] -> exists pre, Str.join sep (l1 ++ l2) = pre ++ Str.join sep l2.
Proof.
  intros Hne. induction l1 as [|x l1 [pre IH]]; [now exists ""|].
  exists (x ++ sep ++ pre). cbn [app].
  rewrite join_cons by (destruct l1, l2; cbn; congruence).
  now rewrite IH, !append_assoc.
Qed.

(** Words joined by single spaces come out of the scan as they went
    in: the summary of a text that holds them starts with them. *)
Lemma join_firstn_words (ws : list string) :
  Forall Str.is_word ws -> ws <> [] ->
  forall (cur s : string) (n : nat),
    (List.length ws <= n)%nat ->
    exists post,
      Str.join " " (firstn n (Str.words_from cur (Str.join " " ws ++ s)))
      = cur ++ Str.join " " ws ++ post.
Proof.
  induction 1 as [|w ws [Hne Hw] Hws IH]; [congruence|]. intros _ cur s n Hn.
  cbn [List.length] in Hn. destruct n as [|n]; [lia|].
  assert (Ht : Str.truthy (cur ++ w) = true).
  { apply truthy_app_r. now apply truthy_not_empty. }
  destruct ws as [|v ws].
  - cbn [Str.join String.concat]. rewrite words_from_word by exact Hw.
    destruct (words_from_head s (cur ++ w) Ht) as (rest & post & ->).
    cbn [firstn]. destruct (firstn n post) as [|p l] eqn:E.
    + exists rest. cbn. now rewrite !append_assoc.
    + exists (rest ++ " " ++ Str.join " " (p :: l)).
      rewrite join_cons by discriminate. now rewrite !append_assoc.
  - change (Str.join " " (w :: v :: ws)) with (w ++ String " " (Str.join " " (v :: ws))).
    rewrite append_assoc, words_from_word by exact Hw.
    change (Str.words_from (cur ++ w) (String " " (Str.join " " (v :: ws)) ++ s))
      with (if Str.truthy (cur ++ w)
            then (cur ++ w) :: Str.words_from "" (Str.join " " (v :: ws) ++ s)
            else Str.words_from "" (Str.join " " (v :: ws) ++ s)).
    rewrite Ht. cbn [firstn].
    destruct (IH ltac:(discriminate) "" s n ltac:(cbn [List.length] in *; lia))
      as [post Hpost].
    cbn [append] in Hpost.
    exists post. rewrite join_cons.
    + rewrite Hpost. now rewrite !append_assoc.
    + intros E. rewrite E in Hpost.
      inversion Hws as [|v' ws' [Hv _] _]; subst.
      destruct (join_head " " v ws) as [r Hr]. rewrite Hr in Hpost.
      destruct v; [congruence | discriminate].
Qed.

(** A text that stands in a longer one, its whitespace single spaces
    between its words, stands in the summary of the longer text as soon
    as the words up to its end are within the limit. *)
Lemma normal_text_in_summary (d a b : string) (n : nat) :
  Str.join " " (Str.split d) = d -> d <> "" ->
  (List.length (Str.split (a ++ d)) <= n)%nat ->
  occurs_in d (Str.join " " (firstn n (Str.split (a ++ d ++ b)))).
Proof.
  intros Hd Hne Hlen.
  pose proof (split_words d) as Hws.
  destruct (Str.split d) as [|w ws] eqn:Ed; [cbn in Hd; congruence|].
  destruct (words_from_app a "") as (done & cur & Happ).
  unfold Str.split in Hlen |- *. rewrite Happ in Hlen |- *.
  rewrite <- Hd in Hlen at 1. rewrite (words_from_join w ws cur Hws) in Hlen.
  rewrite length_app in Hlen. cbn [List.length] in Hlen.
  rewrite firstn_app, (firstn_all2 done) by lia.
  destruct (join_firstn_words (w :: ws) Hws ltac:(discriminate) cur b
              (n - List.length done)%nat ltac:(cbn [List.length]; lia))
    as [post Hpost].
  rewrite Hd in Hpost.
  destruct (join_app_r " " done
              (firstn (n - List.length done) (Str.words_from cur (d ++ b))))
    as [pre Hpre].
  { intros E. rewrite E in Hpost. cbn in Hpost.
    destruct cur; [destruct d; [congruence | discriminate] | discriminate]. }
  rewrite Hpre, Hpost. exists (pre ++ cur), post. now rewrite !append_assoc.
Qed.

End WordsOfATag.

Lemma mem_occurs (c : ascii) (r s : string) :
  occurs_in (String c r) s -> Str.mem c s = true.
Proof.
  intros (pre & post & ->). rewrite mem_app. cbn [append Str.mem].
  rewrite Ascii.eqb_refl. apply orb_true_r.
Qed.

(** C10, as the code has it.  Let a tag written with entities,
    [&lt;t&gt;], stand in the text that tag stripping leaves (it is not
    inside a literal [<...>] span), let the whitespace of the decoded
    tag be single spaces between its words, and let the decoded tag end
    within the first 50 words.  Then decoding, which comes after the
    stripping, turns it into the literal tag, and the literal tag
    stands in the summary as it is: the summary is not free of tags. *)
Theorem encoded_tag_in_summary (h : Host) (text a t b : string) :
  replace_charref h "lt;" = "<" ->
  replace_charref h "gt;" = ">" ->
  Re.sub_tags text = a ++ "&lt;" ++ t ++ "&gt;" ++ b ->
  Str.join " " (Str.split (decoded_tag h t)) = decoded_tag h t ->
  (List.length (Str.split (Html.unescape (replace_charref h) a ++ decoded_tag h t))
   <= 50)%nat ->
  Html.unescape (replace_charref h) (Re.sub_tags text)
  = Html.unescape (replace_charref h) a ++ decoded_tag h t
    ++ Html.unescape (replace_charref h) b /\
  occurs_in (decoded_tag h t) (summarise h text 50) /\
  Str.mem "<" (summarise h text 50) = true.
Proof.
  intros Hlt Hgt Hstrip Hnormal Hlen.
  assert (Hdec : Html.unescape (replace_charref h) (Re.sub_tags text)
                 = Html.unescape (replace_charref h) a ++ decoded_tag h t
                   ++ Html.unescape (replace_charref h) b).
  { rewrite Hstrip, (unescape_encoded_tag _ a t b Hlt Hgt).
    unfold decoded_tag. now rewrite !append_assoc. }
  assert (Hin : occurs_in (decoded_tag h t) (summarise h text 50)).
  { rewrite summarise_summary_of. unfold summary_of, text_words.
    rewrite Hdec. apply occurs_app_l.
    apply normal_text_in_summary; [exact Hnormal | discriminate | exact Hlen]. }
  split; [exact Hdec|]. split; [exact Hin|].
  exact (mem_occurs "<" _ _ Hin).
Qed.

Lemma encoded_tag_in_summary_witness :
  occurs_in "<script>" (summarise demo "<p>Hello</p> &lt;script&gt; &amp; more" 50) /\
  occurs_in "<a href='x'>" (summarise demo "See &lt;a href='x'&gt;this&lt;/a&gt;" 50).
Proof.
  split.
  - destruct (encoded_tag_in_summary demo "<p>Hello</p> &lt;script&gt; &amp; more"
                "Hello " "script" " &amp; more") as (_ & H & _).
    + reflexivity.
    + reflexivity.
    + reflexivity.
    + reflexivity.
    + vm_compute. lia.
    + exact H.
  - destruct (encoded_tag_in_summary demo "See &lt;a href='x'&gt;this&lt;/a&gt;"
                "See " "a href='x'" "this&lt;/a&gt;") as (_ & H & _).
    + reflexivity.
    + reflexivity.
    + reflexivity.
    + reflexivity.
    + vm_compute. lia.
    + exact H.
Defined.

(* ================================================================== *)
(** ** Where the pipeline loses items *)

(** C3 fails on the code.  An RSS feed and an Atom-shaped feed, each
    with one item that has a title and a link: alone, each gives its
    one article; together, the two items are collected and the sort
    raises on their dates, one naive and one aware, so the call yields
    no article for the two items. *)
Theorem qualifying_items_lost_when_sort_raises :
  filter qualifies (raw_items demo [rss_url; atom_url])
  = [ Raw.mk "Rates held" "http://example.org/rates" "Rates held at five percent"
             "Wed, 01 May 2024 09:00:00 GMT";
      Raw.mk "Bond sale" "http://example.org/bonds" ""
             "2024-05-01T10:00:00+01:00" ] /\
  build_articles demo [rss_url] = Ok [rates_held] /\
  build_articles demo [atom_url] = Ok [bond_sale] /\
  build_articles demo [rss_url; atom_url] = TypeError.
Proof. repeat split; vm_compute; reflexivity. Qed.

(** C7 fails on the code.  One story as an RSS document and as an Atom
    document.  The Atom document declares its namespace, so the parser
    hands over elements tagged [{http://www.w3.org/2005/Atom}entry] and
    the like; [parse_feed] looks for [entry] as written, finds none,
    and yields nothing, where the RSS document yields the story.  The
    same Atom document without the declaration yields the story as
    well. *)
Theorem namespaced_atom_feed_lost :
  fromstring wire wire_atom_xml = Some (qualified_atom_of [gilts]) /\
  parse_feed wire wire_rss_xml = [gilts] /\
  parse_feed wire wire_bare_xml = [gilts] /\
  parse_feed wire wire_atom_xml = [] /\
  build_articles wire [wire_rss_url] = Ok [gilts_article] /\
  build_articles wire [wire_atom_url] = Ok [].
Proof. repeat split; vm_compute; reflexivity. Qed.
